(** * meticulous: the typo extraction engine and the sentinel-file workflow

    A shallow embedding of [app/meticulous/_process.py].  Python [str]
    values are sequences of Unicode code points; the collaborators the
    module calls (git, the GitHub API, the interactive prompt) are
    oracles carried by the world the operations run in; paths are POSIX
    paths. *)

From Stdlib Require Import NArith Ascii String DecimalString.
From stdpp Require Import base option numbers list strings gmap sorting.

Local Open Scope N_scope.

(** ** Text *)

(** A Python [str]: the list of its code points. *)
Abbreviation char := N (only parsing).
Abbreviation str := (list N) (only parsing).

(** A literal of the source, as a [str]. *)
Definition lit (s : string) : str :=
  fmap (M := list) N_of_ascii (list_ascii_of_string s).

(** [str.isspace] on one code point, which is also the class [\s] of
    [re] on [str] patterns. *)
Definition is_space (c : char) : bool :=
  ((0x09 <=? c) && (c <=? 0x0D)) || ((0x1C <=? c) && (c <=? 0x1F))
  || (c =? 0x20) || (c =? 0x85) || (c =? 0xA0) || (c =? 0x1680)
  || ((0x2000 <=? c) && (c <=? 0x200A)) || (c =? 0x2028) || (c =? 0x2029)
  || (c =? 0x202F) || (c =? 0x205F) || (c =? 0x3000).

(** The line boundaries of [str.splitlines]. *)
Definition is_linebreak (c : char) : bool :=
  ((0x0A <=? c) && (c <=? 0x0D)) || ((0x1C <=? c) && (c <=? 0x1E))
  || (c =? 0x85) || (c =? 0x2028) || (c =? 0x2029).

(** [str.splitlines()], with [cur] the line read so far: a carriage
    return followed by a line feed is one boundary, and no empty line is
    produced after the last boundary. *)
Fixpoint splitlines_from (cur s : str) : list str :=
  match s with
  | [] => match cur with [] => [] | _ :: _ => [cur] end
  | c :: rest =>
      if is_linebreak c then
        cur :: match rest with
               | c' :: rest' =>
                   if (c =? 0x0D) && (c' =? 0x0A)
                   then splitlines_from [] rest'
                   else splitlines_from [] rest
               | [] => []
               end
      else splitlines_from (cur ++ [c]) rest
  end.

Definition splitlines (s : str) : list str := splitlines_from [] s.

(** [s.startswith(prefix)]. *)
Fixpoint startswith (s prefix : str) : bool :=
  match prefix with
  | [] => true
  | p :: prefix' =>
      match s with
      | [] => false
      | c :: s' => (c =? p) && startswith s' prefix'
      end
  end.

(** [re.findall("\\S+", s)]: the maximal runs of non-whitespace, from
    left to right; [cur] is the run read so far. *)
Fixpoint findall_nonspace_from (cur s : str) : list str :=
  match s with
  | [] => match cur with [] => [] | _ :: _ => [cur] end
  | c :: rest =>
      if is_space c then
        match cur with
        | [] => findall_nonspace_from [] rest
        | _ :: _ => cur :: findall_nonspace_from [] rest
        end
      else findall_nonspace_from (cur ++ [c]) rest
  end.

Definition findall_nonspace (s : str) : list str := findall_nonspace_from [] s.

(** [str.strip()]. *)
Fixpoint lstrip (s : str) : str :=
  match s with
  | [] => []
  | c :: s' => if is_space c then lstrip s' else s
  end.

Definition rstrip (s : str) : str := reverse (lstrip (reverse s)).

Definition strip (s : str) : str := rstrip (lstrip s).

(** [sep.join(parts)]. *)
Fixpoint join (sep : str) (parts : list str) : str :=
  match parts with
  | [] => []
  | [p] => p
  | p :: parts' => p ++ sep ++ join sep parts'
  end.

(** The line feed that [print] appends. *)
Definition LF : char := 0x0A.

(** [str(n)] for a non-negative integer. *)
Definition str_of_N (n : N) : str :=
  lit (NilZero.string_of_uint (N.to_uint n)).

(** ** Paths *)

(** A [pathlib.PurePosixPath]: its root (empty, one slash or two) and
    its components, which are never empty and never a lone dot. *)
Record Path := { path_root : str; path_parts : list str }.

(** [s.split(sep)] for a one-character separator. *)
Fixpoint split_from (sep : char) (cur s : str) : list str :=
  match s with
  | [] => [cur]
  | c :: rest =>
      if c =? sep then cur :: split_from sep [] rest
      else split_from sep (cur ++ [c]) rest
  end.

Definition SLASH : char := 0x2F.

(** The leading slashes of a path text. *)
Fixpoint leading_slashes (s : str) : nat :=
  match s with
  | c :: rest => if c =? SLASH then S (leading_slashes rest) else 0%nat
  | [] => 0%nat
  end.

(** [Path(s)]: exactly two leading slashes are kept as the root, any
    other positive number collapses to one; empty components and dots
    are dropped. *)
Definition to_Path (s : str) : Path :=
  {| path_root := match leading_slashes s with
                  | 0%nat => []
                  | 2%nat => [SLASH; SLASH]
                  | _ => [SLASH]
                  end;
     path_parts := filter (λ p, p ≠ [] ∧ p ≠ lit ".") (split_from SLASH [] s) |}.

(** [str(p)]. *)
Definition Path_str (p : Path) : str :=
  match path_root p, path_parts p with
  | [], [] => lit "."
  | r, ps => r ++ join [SLASH] ps
  end.

(** [p / q]: an absolute right operand replaces the left one. *)
Definition Path_div (p q : Path) : Path :=
  match path_root q with
  | [] => {| path_root := path_root p; path_parts := path_parts p ++ path_parts q |}
  | _ :: _ => q
  end.

(** [p.name]: the last component, empty when there is none. *)
Definition Path_name (p : Path) : str := default [] (last (path_parts p)).

(** ** The world the operations run in *)

(** A saved change, the value of one key of ["repository_saves"]. *)
Record reposave := {
  add_word : str;
  del_word : str;
  file_paths : list str;
  repodir : str;
}.

(** A record of the durable store: a local path under
    ["repository_map"], a saved change under ["repository_saves"]. *)
Inductive entry :=
  | RepoPath (localpath : str)
  | RepoSave (save : reposave).

(** A repository of the hosting API: a root, or a fork with the
    repository it was forked from. *)
Inductive repo :=
  | Root (full_name : str)
  | Fork (full_name : str) (parent : repo).

(** [repo.parent]. *)
Definition repo_parent (r : repo) : option repo :=
  match r with
  | Root _ => None
  | Fork _ p => Some p
  end.

(** The calls that change a collaborator's state, in the order made. *)
Inductive effect :=
  | GitFG (cwd : str) (args : list str)
  | CreateIssue (on : repo) (title body : str)
  | CreatePull (on : repo) (title body base head : str).

(** The collaborators, as oracles: [git cwd args] is the output of git
    run in [cwd], or [None] when it exits with an error; [prompt message
    choicelist] is the entry ["option"] of the answers, if any; the API
    calls answer [None] when they raise. *)
Record collaborators := {
  git : str → list str → option str;
  prompt : str → list str → option str;
  api_login : option str;
  api_get_repo : str → option repo;
  api_create_issue : repo → str → str → option N;
  api_create_pull : repo → str → str → str → str → option (N * str);
}.

(** What the process can change: regular files (path to text),
    directories, the durable store, the two output streams (one entry
    per [print]) and the effects on the collaborators.  Text is taken to
    hold encodable code points only, so that writing it never fails. *)
Record state := {
  files : gmap str str;
  dirs : gset str;
  storage : gmap str (gmap str entry);
  stdout : list str;
  stderr : list str;
  effects : list effect;
}.

Definition set_files (f : gmap str str → gmap str str) (s : state) : state :=
  {| files := f (files s); dirs := dirs s; storage := storage s;
     stdout := stdout s; stderr := stderr s; effects := effects s |}.

Definition set_storage (f : gmap str (gmap str entry) → gmap str (gmap str entry))
    (s : state) : state :=
  {| files := files s; dirs := dirs s; storage := f (storage s);
     stdout := stdout s; stderr := stderr s; effects := effects s |}.

Definition add_stdout (line : str) (s : state) : state :=
  {| files := files s; dirs := dirs s; storage := storage s;
     stdout := stdout s ++ [line]; stderr := stderr s; effects := effects s |}.

Definition add_stderr (line : str) (s : state) : state :=
  {| files := files s; dirs := dirs s; storage := storage s;
     stdout := stdout s; stderr := stderr s ++ [line]; effects := effects s |}.

Definition add_effect (e : effect) (s : state) : state :=
  {| files := files s; dirs := dirs s; storage := storage s;
     stdout := stdout s; stderr := stderr s; effects := effects s ++ [e] |}.

(** The exceptions of the module and of its collaborators. *)
Inductive exn :=
  | ProcessingFailed
  | NoRepoException
  | Exception (msg : str)
  | FileNotFoundError (path : str)
  | ProcessExecutionError
  | GithubException.

Inductive result (A : Type) :=
  | Ok (a : A)
  | Raise (e : exn).
Arguments Ok {A} a.
Arguments Raise {A} e.

(** A computation: it returns or raises, and leaves a state. *)
Definition M (A : Type) : Type := state → result A * state.

Definition ret {A} (a : A) : M A := λ s, (Ok a, s).

Definition bind {A B} (m : M A) (k : A → M B) : M B := λ s,
  match m s with
  | (Ok a, s') => k a s'
  | (Raise e, s') => (Raise e, s')
  end.

Declare Scope M_scope.
Delimit Scope M_scope with M.
Bind Scope M_scope with M.
Notation "'let*' x ':=' m 'in' k" := (bind m (λ x, k))
  (at level 10, x pattern, m at level 100, k at level 200) : M_scope.
Notation "m ;; k" := (bind m (λ _, k))
  (at level 100, k at level 200, right associativity) : M_scope.
Local Open Scope M_scope.

Definition raise {A} (e : exn) : M A := λ s, (Raise e, s).

Definition modify (f : state → state) : M unit := λ s, (Ok (), f s).

Definition gets {A} (f : state → A) : M A := λ s, (Ok (f s), s).

(** An answer of a collaborator, raising [e] when there is none. *)
Definition answer {A} (e : exn) (o : option A) : M A :=
  match o with
  | Some a => ret a
  | None => raise e
  end.

(** [print(line)] and [print(line, file=sys.stderr)]. *)
Definition print (line : str) : M unit := modify (add_stdout line).
Definition eprint (line : str) : M unit := modify (add_stderr line).

(** [io.open(path, "w")], which empties the file, and [print(text,
    file=fobj)] on it, which appends the text and a line feed.  The
    directory of the file is taken to exist and to be writable. *)
Definition open_w (path : str) : M unit := modify (set_files <[path := []]>).

Definition fprint (path : str) (text : str) : M unit :=
  modify (set_files (λ fs, <[path := default [] (fs !! path) ++ text ++ [LF]]> fs)).

(** The whole text of a file opened for reading. *)
Definition open_r (path : str) : M str :=
  let* s := gets files in
  answer (FileNotFoundError path) (s !! path).

(** [path.exists()]. *)
Definition Path_exists (p : Path) : M bool :=
  let* s := gets id in
  ret (bool_decide (is_Some (files s !! Path_str p) ∨ Path_str p ∈ dirs s)).

(** ** The durable store *)

(** Modelled from the spec: [meticulous._storage] (get_json_value,
    set_json_value) is not among the sources.  A get answers the stored
    collection, or the default when the collection is missing, and never
    fails; a set overwrites the whole collection. *)
Definition get_json_value (key : str) (default_value : gmap str entry)
    : M (gmap str entry) :=
  let* st := gets storage in
  ret (default default_value (st !! key)).

(** Modelled from the spec: the set of [meticulous._storage], a full
    overwrite of the collection. *)
Definition set_json_value (key : str) (value : gmap str entry) : M unit :=
  modify (set_storage <[key := value]>).

(** ** The operations of [_process.py] *)

(** Code-point order on [str], the order of [sorted]. *)
Fixpoint str_leb (a b : str) : bool :=
  match a, b with
  | [], _ => true
  | _ :: _, [] => false
  | x :: a', y :: b' => (x <? y) || ((x =? y) && str_leb a' b')
  end.

(** The first pair of a [zip] whose components differ: the loop that
    ends [get_typo]. *)
Fixpoint first_mismatch (pairs : list (str * str)) : option (str * str) :=
  match pairs with
  | [] => None
  | (del_word, add_word) :: pairs' =>
      if bool_decide (del_word ≠ add_word) then Some (del_word, add_word)
      else first_mismatch pairs'
  end.

(** [universal newlines]: what reading in text mode does to the line
    ends of a file. *)
Fixpoint universal_newlines (s : str) : str :=
  match s with
  | [] => []
  | c :: rest =>
      if c =? 0x0D then
        LF :: match rest with
              | c' :: rest' =>
                  if c' =? LF then universal_newlines rest'
                  else universal_newlines rest
              | [] => []
              end
      else c :: universal_newlines rest
  end.

(** [fobj.readline()]: the line up to and including its line feed, and
    what is left to read. *)
Fixpoint readline (s : str) : str * str :=
  match s with
  | [] => ([], [])
  | c :: rest =>
      if c =? LF then ([c], rest)
      else let '(line, rest') := readline rest in (c :: line, rest')
  end.

(** The text of a triple-quoted literal, line by line. *)
Definition unlines (ls : list str) : str := concat ((λ l, l ++ [LF]) <$> ls).

(** The values of the menu of [get_pr_or_issue_choices]. *)
Inductive handler :=
  | h_show_path
  | h_make_a_commit
  | h_make_issue
  | h_submit_issue
  | h_submit_commit.

Inductive context :=
  | ctx_path (p : Path)
  | ctx_bool (b : bool)
  | ctx_None.

(** [while repo.parent: repo = repo.parent]. *)
Fixpoint upstream_root (r : repo) : repo :=
  match r with
  | Root _ => r
  | Fork _ p => upstream_root p
  end.

(** A loop whose body runs in [M], over the items of a list. *)
Fixpoint foldM {A B} (f : B → A → M B) (acc : B) (items : list A) : M B :=
  match items with
  | [] => ret acc
  | x :: items' => let* acc' := f acc x in foldM f acc' items'
  end.

Section Process.

Context (world : collaborators).

(** [git(args)] inside [local.cwd(cwd)]. *)
Definition run_git (cwd : str) (args : list str) : M str :=
  answer ProcessExecutionError (git world cwd args).

(** [git[args] & FG] inside [local.cwd(cwd)]. *)
Definition run_git_fg (cwd : str) (args : list str) : M unit :=
  modify (add_effect (GitFG cwd args));;
  let* _ := run_git cwd args in
  ret ().

Definition make_choice {V} (choices : gmap str V) (message : str) : option V :=
  let choicelist :=
    merge_sort (λ a b, Is_true (str_leb a b)) (map_to_list choices).*1
    ++ [lit "- quit -"] in
  let option := default (lit "- quit -") (prompt world message choicelist) in
  choices !! option.

Definition make_simple_choice (choices : list str) (message : str) : option str :=
  make_choice (list_to_map ((λ choice, (choice, choice)) <$> choices)) message.

Definition get_typo (repodir : str) : M (str * str * list str) :=
  let* output := run_git repodir [lit "diff"; lit "--staged"] in
  let file_paths :=
    foldl (λ file_paths line,
             if startswith line (lit "--- a/")
             then file_paths ++ [drop (length (lit "--- a/")) line]
             else file_paths)
          [] (splitlines output) in
  let '(del_lines, add_lines) :=
    foldl (λ '(del_lines, add_lines) line,
             if startswith line (lit "-") && negb (startswith line (lit "--- "))
             then (del_lines ++ [drop 1 line], add_lines)
             else if startswith line (lit "+") && negb (startswith line (lit "+++ "))
             then (del_lines, add_lines ++ [drop 1 line])
             else (del_lines, add_lines))
          ([], []) (splitlines output) in
  match del_lines, add_lines with
  | del_line :: _, add_line :: _ =>
      let del_words := findall_nonspace del_line in
      let add_words := findall_nonspace add_line in
      match first_mismatch (zip del_words add_words) with
      | Some (del_word, add_word) => ret (del_word, add_word, file_paths)
      | None =>
          eprint (lit "Could not locate typo");;
          raise ProcessingFailed
      end
  | _, _ =>
      eprint (lit "Could not read diff");;
      raise ProcessingFailed
  end.

Definition add_change_for_repo (repodir : str) : M unit :=
  let* (del_word, add_word, file_paths) := get_typo repodir in
  print (lit "Changing " ++ del_word ++ lit " to " ++ add_word
         ++ lit " in " ++ join (lit ", ") file_paths);;
  let option := make_simple_choice [lit "save"] (lit "Do you want to save?") in
  if bool_decide (option = Some (lit "save")) then
    let* saves := get_json_value (lit "repository_saves") ∅ in
    let reponame := Path_name (to_Path repodir) in
    set_json_value (lit "repository_saves")
      (<[reponame := RepoSave {| add_word := add_word; del_word := del_word;
                                 file_paths := file_paths; repodir := repodir |}]>
         saves)
  else ret ().

Definition get_pr_or_issue_choices (reponame : str) (repodirpath : Path)
    : M (gmap str (handler * context)) :=
  let issue_template := Path_div (to_Path (lit ".github")) (to_Path (lit "ISSUE_TEMPLATE")) in
  let pr_template :=
    Path_div (to_Path (lit ".github")) (to_Path (lit "pull_request_template.md")) in
  let contrib_guide := to_Path (lit "CONTRIBUTING.md") in
  let issue := to_Path (lit "__issue__.txt") in
  let commit := to_Path (lit "__commit__.txt") in
  let prpath := to_Path (lit "__pr__.txt") in
  let no_issues := to_Path (lit "__no_issues__.txt") in
  let* choices :=
    foldM (λ (choices : gmap str (handler * context)) path,
             let* has_path := Path_exists (Path_div repodirpath path) in
             print (reponame ++ lit " "
                    ++ (if has_path then lit "HAS" else lit "does not have")
                    ++ lit " " ++ Path_str path);;
             ret (if has_path
                   then <[lit "show " ++ Path_str path := (h_show_path, ctx_path path)]> choices
                   else choices))
          ∅
          [issue_template; pr_template; contrib_guide; prpath; issue; commit; no_issues] in
  let* repo_disables_issues := Path_exists (Path_div repodirpath no_issues) in
  let choices :=
    if repo_disables_issues
    then <[lit "make a commit" := (h_make_a_commit, ctx_bool false)]> choices
    else <[lit "make a short issue" := (h_make_issue, ctx_bool false)]>
           (<[lit "make a full issue" := (h_make_issue, ctx_bool true)]> choices) in
  let* has_issue := Path_exists (Path_div repodirpath issue) in
  let choices :=
    if has_issue
    then <[lit "submit issue" := (h_submit_issue, ctx_None)]> choices
    else choices in
  let* has_commit := Path_exists (Path_div repodirpath commit) in
  let choices :=
    if has_commit
    then <[lit "submit issue" := (h_submit_issue, ctx_None)]>
           (<[lit "submit commit" := (h_submit_commit, ctx_None)]> choices)
    else choices in
  ret choices.

Definition make_issue (reponame : str) (reposave : reposave) (is_full : bool) : M unit :=
  let add_word := add_word reposave in
  let del_word := del_word reposave in
  let file_paths := file_paths reposave in
  let repodir := to_Path (repodir reposave) in
  let files := join (lit ", ") file_paths in
  let title := lit "Fix simple typo: " ++ del_word ++ lit " -> " ++ add_word in
  let body :=
    if is_full then
      unlines [ lit "# Issue Type";
                [];
                lit "[x] Bug (Typo)";
                [];
                lit "# Steps to Replicate";
                [];
                lit "1. Examine " ++ files ++ lit ".";
                lit "2. Search for `" ++ del_word ++ lit "`.";
                [];
                lit "# Expected Behaviour";
                [];
                lit "1. Should read `" ++ add_word ++ lit "`." ]
    else
      unlines [ lit "There is a small typo in " ++ files ++ lit ".";
                lit "Should read `" ++ add_word ++ lit "` rather than `"
                ++ del_word ++ lit "`." ] in
  let fobj := Path_str (Path_div repodir (to_Path (lit "__issue__.txt"))) in
  open_w fobj;;
  fprint fobj title;;
  fprint fobj [];;
  fprint fobj body.

Definition make_a_commit (reponame : str) (reposave : reposave) (is_full : bool) : M unit :=
  let add_word := add_word reposave in
  let del_word := del_word reposave in
  let file_paths := file_paths reposave in
  let repodir := to_Path (repodir reposave) in
  let files := join (lit ", ") file_paths in
  let commit_path := Path_str (Path_div repodir (to_Path (lit "__commit__.txt"))) in
  open_w commit_path;;
  fprint commit_path
    (unlines [ lit "Fix simple typo: " ++ del_word ++ lit " -> " ++ add_word;
               [];
               lit "There is a small typo in " ++ files ++ lit ".";
               lit "Should read `" ++ add_word ++ lit "` rather than `"
               ++ del_word ++ lit "`." ]).

Definition load_commit_like_file (path : str) : M (str * str) :=
  let* text := open_r path in
  let fobj := universal_newlines text in
  let '(line1, fobj) := readline fobj in
  let title := strip line1 in
  let '(line2, fobj) := readline fobj in
  let blankline := strip line2 in
  if bool_decide (blankline ≠ []) then
    raise (Exception (lit "Needs to be a blank second line for " ++ path ++ lit "."))
  else
    let body := fobj in
    ret (title, body).

Definition issue_via_api (reponame title body : str) : M N :=
  let* user_org := answer GithubException (api_login world) in
  let* repo := answer GithubException (api_get_repo world (user_org ++ lit "/" ++ reponame)) in
  let repo := upstream_root repo in
  modify (add_effect (CreateIssue repo title body));;
  answer GithubException (api_create_issue world repo title body).

Definition submit_issue (reponame : str) (reposave : reposave) (ctxt : context) : M unit :=
  let repodir := to_Path (repodir reposave) in
  let add_word := add_word reposave in
  let del_word := del_word reposave in
  let issue_path := Path_str (Path_div repodir (to_Path (lit "__issue__.txt"))) in
  let* (title, body) := load_commit_like_file issue_path in
  let* issue_num := issue_via_api reponame title body in
  let commit_path := Path_str (Path_div repodir (to_Path (lit "__commit__.txt"))) in
  open_w commit_path;;
  fprint commit_path
    (unlines [ lit "Fix simple typo: " ++ del_word ++ lit " -> " ++ add_word;
               [];
               lit "Closes #" ++ str_of_N issue_num ]).

Definition push_commit (repodir : Path) (add_word : str) : M (str * str) :=
  let cwd := Path_str repodir in
  let* head := run_git cwd [lit "symbolic-ref"; lit "--short"; lit "HEAD"] in
  let to_branch := strip head in
  let from_branch := lit "bugfix/typo_" ++ add_word in
  run_git_fg cwd [lit "commit"; lit "-F"; lit "__commit__.txt"];;
  run_git_fg cwd [lit "push"; lit "origin"; to_branch ++ lit ":" ++ from_branch];;
  ret (from_branch, to_branch).

Definition create_pr (reponame title body from_branch to_branch : str) : M unit :=
  let* user_org := answer GithubException (api_login world) in
  let* repo := answer GithubException (api_get_repo world (user_org ++ lit "/" ++ reponame)) in
  let repo := upstream_root repo in
  let head := user_org ++ lit ":" ++ from_branch in
  modify (add_effect (CreatePull repo title body to_branch head));;
  let* (number, html_url) :=
    answer GithubException (api_create_pull world repo title body to_branch head) in
  print (lit "Created PR #" ++ str_of_N number ++ lit " view at" ++ lit " " ++ html_url).

Definition submit_commit (reponame : str) (reposave : reposave) (ctxt : context) : M unit :=
  let repodir := to_Path (repodir reposave) in
  let add_word := add_word reposave in
  let commit_path := Path_str (Path_div repodir (to_Path (lit "__commit__.txt"))) in
  let* (title, body) := load_commit_like_file commit_path in
  let* (from_branch, to_branch) := push_commit repodir add_word in
  create_pr reponame title body from_branch to_branch.

End Process.

(** ** Picking, preparing and removing a repository *)

(** [KeyError(key)]: an [Exception] whose argument is the key. *)
Definition KeyError (key : str) : exn := Exception key.

(** The [TypeError] of an operation applied to a record of the store
    that has the wrong shape, an [Exception] as well. *)
Definition TypeError : exn := Exception (lit "TypeError").

Section Repositories.

Context (world : collaborators).

(** [os.chdir] and [shutil.rmtree], the two calls of the standard
    library that act on the file system as a whole, and [os.listdir]. *)
Context (chdir rmtree : str → M unit) (listdir : str → M (list str)).

Definition pick_repo_common (key : str) : M (str * entry) :=
  let* repository_list := get_json_value key ∅ in
  if bool_decide (repository_list = ∅) then
    eprint (lit "No repositories available.");;
    raise NoRepoException
  else
    match make_simple_choice world (map_to_list repository_list).*1
            (lit "Which Repository?") with
    | None => raise NoRepoException
    | Some option =>
        let* repo_data := answer (KeyError option) (repository_list !! option) in
        ret (option, repo_data)
    end.

Definition pick_repo_save : M (str * entry) :=
  pick_repo_common (lit "repository_saves").

Definition pick_repo : M (str * entry) :=
  pick_repo_common (lit "repository_map").

Definition prepare_a_change (target : str) : M unit :=
  let* (_, repodir) := pick_repo in
  match repodir with
  | RepoPath repodir => add_change_for_repo world repodir
  | RepoSave _ => raise TypeError
  end.



End Repositories.

(** ** The vocabulary of the specification *)

(** A deletion line of a unified diff: it starts with the marker [-] and
    is not a file header [--- ]; likewise an addition line. *)
Definition is_deletion_line (line : str) : bool :=
  startswith line (lit "-") && negb (startswith line (lit "--- ")).

Definition is_addition_line (line : str) : bool :=
  startswith line (lit "+") && negb (startswith line (lit "+++ ")).

(** The text, after its marker, of the first deletion line of a diff,
    and of its first addition line. *)
Definition first_deleted_line (output : str) : option str :=
  drop 1 <$> List.find is_deletion_line (splitlines output).

Definition first_added_line (output : str) : option str :=
  drop 1 <$> List.find is_addition_line (splitlines output).

(** What follows [prefix] in [s], when [s] begins with it. *)
Fixpoint suffix_after (prefix s : str) : option str :=
  match prefix, s with
  | [], _ => Some s
  | p :: prefix', c :: s' => if c =? p then suffix_after prefix' s' else None
  | _ :: _, [] => None
  end.

(** The suffixes of the diff lines that begin with [--- a/], in order. *)
Definition old_file_paths (output : str) : list str :=
  omap (suffix_after (lit "--- a/")) (splitlines output).

(** Two token sequences first differ at some position, with the tokens
    [d] and [a] there. *)
Definition first_difference (del_words add_words : list str) (d a : str) : Prop :=
  ∃ i : nat,
    del_words !! i = Some d ∧ add_words !! i = Some a ∧ d ≠ a
    ∧ ∀ j : nat, (j < i)%nat → del_words !! j = add_words !! j.

(** No position holds two different tokens. *)
Definition no_difference (del_words add_words : list str) : Prop :=
  ∀ (i : nat) (d a : str),
    del_words !! i = Some d → add_words !! i = Some a → d = a.

(** The two failures of the extraction, as the operator sees them: the
    diagnostic on the error stream, then [ProcessingFailed]. *)
Definition NoDiffFound {A} : M A :=
  eprint (lit "Could not read diff");; raise ProcessingFailed.

Definition TypoNotLocated {A} : M A :=
  eprint (lit "Could not locate typo");; raise ProcessingFailed.

(** The staged diff git reports in a working directory. *)
Definition staged_diff (world : collaborators) (repodir : str) : option str :=
  git world repodir [lit "diff"; lit "--staged"].

(** The error of a draft whose second line is not blank. *)
Definition MalformedDraft (path : str) : exn :=
  Exception (lit "Needs to be a blank second line for " ++ path ++ lit ".").

(** The lines of a text file, as reading in text mode delimits them. *)
Definition text_lines (text : str) : list str :=
  split_from LF [] (universal_newlines text).

(** A line that holds nothing but whitespace. *)
Definition blank (line : str) : Prop := Forall (λ c, is_space c = true) line.

(** The sentinel files of a saved change. *)
Definition issue_draft (reposave : reposave) : str :=
  Path_str (Path_div (to_Path (repodir reposave)) (to_Path (lit "__issue__.txt"))).

Definition commit_draft (reposave : reposave) : str :=
  Path_str (Path_div (to_Path (repodir reposave)) (to_Path (lit "__commit__.txt"))).

(** A sentinel of the working directory [repodirpath] is present. *)
Definition sentinel (name : string) (repodirpath : Path) (s : state) : Prop :=
  let path := Path_str (Path_div repodirpath (to_Path (lit name))) in
  is_Some (files s !! path) ∨ path ∈ dirs s.

(** A token of [findall_nonspace]: not empty, and free of whitespace. *)
Definition word (w : str) : Prop := w ≠ [] ∧ Forall (λ c, is_space c = false) w.

(** An entry of the menu that shows a file. *)
Definition show_entry (key : str) (value : handler * context) : Prop :=
  (∃ shown, key = lit "show " ++ shown) ∧ value.1 = h_show_path.

(** The remote branch a correction to [add_word] is pushed to. *)
Definition typo_branch (add_word : str) : str := lit "bugfix/typo_" ++ add_word.

(** A collection of the durable store, empty when it was never set. *)
Definition collection (key : string) (s : state) : gmap str entry :=
  default ∅ (storage s !! lit key).

(** The name of a directory entry: one component of a path. *)
Definition simple_name (name : str) : Prop :=
  name ≠ [] ∧ name ≠ lit "." ∧ Forall (λ c, c ≠ SLASH) name.


(** The order in which a menu lists its entries. *)
Definition str_le (a b : str) : Prop := Is_true (str_leb a b).

(** A component of a parsed path. *)
Definition component (p : str) : Prop :=
  (p ≠ [] ∧ p ≠ lit ".") ∧ Forall (λ c, c ≠ SLASH) p.

(** The title of the drafts of a saved change. *)
Definition typo_title (reposave : reposave) : str :=
  lit "Fix simple typo: " ++ del_word reposave ++ lit " -> " ++ add_word reposave.

(** A saved change as the extraction produces them: two tokens, and
    file paths without line boundary. *)
Definition extracted (reposave : reposave) : Prop :=
  word (del_word reposave) ∧ word (add_word reposave)
  ∧ Forall (Forall (λ c, is_linebreak c = false)) (file_paths reposave).

(** A path names a file or a directory. *)
Definition present (p : Path) (s : state) : Prop :=
  is_Some (files s !! Path_str p) ∨ Path_str p ∈ dirs s.

(** The seven paths [get_pr_or_issue_choices] probes, relative to the
    working directory. *)
Definition probed_paths : list Path :=
  [ Path_div (to_Path (lit ".github")) (to_Path (lit "ISSUE_TEMPLATE"));
    Path_div (to_Path (lit ".github")) (to_Path (lit "pull_request_template.md"));
    to_Path (lit "CONTRIBUTING.md");
    to_Path (lit "__pr__.txt");
    to_Path (lit "__issue__.txt");
    to_Path (lit "__commit__.txt");
    to_Path (lit "__no_issues__.txt") ].

(** ** A small world, for examples *)

(** A process that has written nothing yet. *)
Definition fresh : state :=
  {| files := ∅; dirs := ∅; storage := ∅; stdout := []; stderr := []; effects := [] |}.

(** Collaborators for which git prints [output] whatever it is asked,
    the operator answers ["save"], and the fork [me/foo] of [up/foo] is
    open to issues and pull requests. *)
Definition stub_world (output : str) : collaborators :=
  {| git := λ _ _, Some output;
     prompt := λ _ _, Some (lit "save");
     api_login := Some (lit "me");
     api_get_repo := λ full_name, Some (Fork full_name (Root (lit "up/foo")));
     api_create_issue := λ _ _ _, Some 7;
     api_create_pull := λ _ _ _ _ _, Some (12, lit "https://example.org/up/foo/pull/12") |}.

(** The staged diff of the scenario: one word of [foo.txt] corrected. *)
Definition typo_diff : str :=
  unlines [ lit "diff --git a/foo.txt b/foo.txt";
            lit "index 8a1b2c3..4d5e6f7 100644";
            lit "--- a/foo.txt";
            lit "+++ b/foo.txt";
            lit "@@ -1 +1 @@";
            lit "-Teh cat sat";
            lit "+The cat sat" ].

(** A staged change of spacing only. *)
Definition spacing_diff : str :=
  unlines [ lit "--- a/foo.txt";
            lit "+++ b/foo.txt";
            lit "@@ -1 +1 @@";
            lit "-The cat  sat";
            lit "+The cat sat" ].

(** A staged diff that only adds a line. *)
Definition addition_diff : str :=
  unlines [ lit "--- a/foo.txt";
            lit "+++ b/foo.txt";
            lit "@@ -1,0 +2 @@";
            lit "+The cat sat" ].

(** The staged diff of a file whose name git quotes: the header starts
    with a double quote, not with [--- a/]. *)
Definition quoted_diff : str :=
  unlines [ lit "diff --git " ++ [0x22] ++ lit "a/caf\303\251.txt" ++ [0x22; 0x20; 0x22]
              ++ lit "b/caf\303\251.txt" ++ [0x22];
            lit "index 8a1b2c3..4d5e6f7 100644";
            lit "--- " ++ [0x22] ++ lit "a/caf\303\251.txt" ++ [0x22];
            lit "+++ " ++ [0x22] ++ lit "b/caf\303\251.txt" ++ [0x22];
            lit "@@ -1 +1 @@";
            lit "-Teh cat sat";
            lit "+The cat sat" ].

(** The change saved in the scenario. *)
Definition the_change : reposave :=
  {| add_word := lit "The"; del_word := lit "Teh";
     file_paths := [lit "foo.txt"]; repodir := lit "/home/me/data/foo" |}.

(** A draft whose second line holds the body: the blank line is missing. *)
Definition malformed_draft : str :=
  unlines [ lit "Fix simple typo: Teh -> The";
            lit "There is a small typo in foo.txt." ].

(** A commit message as [submit_issue] writes it. *)
Definition commit_message : str :=
  unlines [ lit "Fix simple typo: Teh -> The";
            [];
            lit "Closes #7";
            [] ].

(** Collaborators like those of [stub_world], with an operator who
    answers each message as [answers] says, and does not answer the
    others. *)
Definition operator (output : str) (answers : list (str * str)) : collaborators :=
  {| git := λ _ _, Some output;
     prompt := λ message _, (list_to_map answers : gmap str str) !! message;
     api_login := Some (lit "me");
     api_get_repo := λ full_name, Some (Fork full_name (Root (lit "up/foo")));
     api_create_issue := λ _ _ _, Some 7;
     api_create_pull := λ _ _ _ _ _, Some (12, lit "https://example.org/up/foo/pull/12") |}.

(** A store that knows the repository [foo], with a pending change. *)
Definition registry : state :=
  set_storage
    (λ _, <[lit "repository_map" := {[ lit "foo" := RepoPath (lit "/home/me/data/foo") ]}]>
            {[ lit "repository_saves" := {[ lit "foo" := RepoSave the_change ]} ]})
    fresh.




(** * Properties *)

(** ** The text primitives on examples *)

Example splitlines_ex :
  splitlines (lit "ab" ++ [0x0D; 0x0A] ++ lit "c" ++ [0x0A; 0x0A] ++ lit "d" ++ [0x0A])
  = [lit "ab"; lit "c"; []; lit "d"].
Proof. reflexivity. Qed.

Example findall_ex :
  findall_nonspace (lit " Teh  cat sat ") = [lit "Teh"; lit "cat"; lit "sat"].
Proof. reflexivity. Qed.

Example strip_ex : strip (lit "  a b " ++ [LF]) = lit "a b".
Proof. reflexivity. Qed.

Example Path_ex :
  Path_str (Path_div (to_Path (lit "/home//me/./data/repo/")) (to_Path (lit "__issue__.txt")))
  = lit "/home/me/data/repo/__issue__.txt"
  ∧ Path_name (to_Path (lit "/home/me/data/repo/")) = lit "repo".
Proof. split; reflexivity. Qed.

(** ** Text and list lemmas *)

(** Replace the literals of the goal by their code points. *)
Ltac lits :=
  repeat match goal with
         | |- context [lit ?s] =>
             let v := eval vm_compute in (lit s) in change (lit s) with v
         end.

Lemma suffix_after_startswith (prefix s : str) :
  suffix_after prefix s
  = if startswith s prefix then Some (drop (length prefix) s) else None.
Proof.
  revert s. induction prefix as [|p prefix IH]; intros [|c s]; simpl; try done.
  rewrite IH. by destruct (c =? p).
Qed.

Lemma fold_file_paths (lines : list str) (acc : list str) :
  foldl (λ file_paths line,
           if startswith line (lit "--- a/")
           then file_paths ++ [drop (length (lit "--- a/")) line]
           else file_paths) acc lines
  = acc ++ omap (suffix_after (lit "--- a/")) lines.
Proof.
  revert acc. induction lines as [|line lines IH]; intros acc.
  - by rewrite app_nil_r.
  - cbn [foldl]. rewrite IH. change (omap ?f (line :: lines))
      with (match f line with Some y => y :: omap f lines | None => omap f lines end).
    rewrite suffix_after_startswith.
    destruct (startswith line (lit "--- a/")); [|done].
    by rewrite <- app_assoc.
Qed.

(** A line cannot carry both markers. *)
Lemma deletion_not_addition (line : str) :
  is_deletion_line line = true → is_addition_line line = false.
Proof.
  unfold is_deletion_line, is_addition_line.
  lits. destruct line as [|c line]; [done|]. cbn [startswith].
  destruct (N.eqb_spec c 45) as [->|]; [done|]. by rewrite !andb_false_l.
Qed.

Lemma fold_del_add_lines (lines : list str) (dels adds : list str) :
  foldl (λ '(del_lines, add_lines) line,
           if startswith line (lit "-") && negb (startswith line (lit "--- "))
           then (del_lines ++ [drop 1 line], add_lines)
           else if startswith line (lit "+") && negb (startswith line (lit "+++ "))
           then (del_lines, add_lines ++ [drop 1 line])
           else (del_lines, add_lines)) (dels, adds) lines
  = (dels ++ (drop 1 <$> List.filter is_deletion_line lines),
     adds ++ (drop 1 <$> List.filter is_addition_line lines)).
Proof.
  revert dels adds. induction lines as [|line lines IH]; intros dels adds.
  - by rewrite !app_nil_r.
  - cbn [foldl List.filter].
    fold (is_deletion_line line). fold (is_addition_line line).
    destruct (is_deletion_line line) eqn:Hd.
    + rewrite (deletion_not_addition _ Hd), IH. cbn [fmap list_fmap].
      by rewrite <- app_assoc.
    + destruct (is_addition_line line); rewrite IH; cbn [fmap list_fmap];
        by rewrite <- ?app_assoc.
Qed.

Lemma head_filter_find {A} (P : A → bool) (l : list A) :
  head (List.filter P l) = List.find P l.
Proof. induction l as [|x l IH]; simpl; [done|]. by destruct (P x). Qed.

Lemma find_None_Forall {A} (P : A → bool) (l : list A) :
  Forall (λ x, P x = false) l → List.find P l = None.
Proof. induction 1 as [|x l Hx _ IH]; simpl; [done|]. by rewrite Hx. Qed.

Lemma first_mismatch_Some (del_words add_words : list str) (d a : str) :
  first_mismatch (zip del_words add_words) = Some (d, a)
  ↔ first_difference del_words add_words d a.
Proof.
  revert add_words. induction del_words as [|dw dws IH]; intros [|aw aws]; simpl.
  - split; [done|]. by intros (i & Hd & _).
  - split; [done|]. by intros (i & Hd & _).
  - split; [done|]. by intros (i & _ & Ha & _); destruct i.
  - case_bool_decide as Hne.
    + split.
      * intros [= <- <-]. exists 0%nat. repeat split; auto. intros j Hj. lia.
      * intros ([|i] & Hd & Ha & Hda & Hbefore).
        { by simplify_eq/=. }
        specialize (Hbefore 0%nat ltac:(lia)). by simplify_eq/=.
    + assert (dw = aw) as -> by (by destruct (decide (dw = aw)); [|exfalso; auto]).
      rewrite IH. split.
      * intros (i & Hd & Ha & Hda & Hbefore). exists (S i). repeat split; auto.
        intros [|j] Hj; [done|]. apply Hbefore. lia.
      * intros ([|i] & Hd & Ha & Hda & Hbefore).
        { by simplify_eq/=. }
        exists i. repeat split; auto. intros j Hj. apply (Hbefore (S j)). lia.
Qed.

Lemma first_mismatch_None (del_words add_words : list str) :
  first_mismatch (zip del_words add_words) = None
  ↔ no_difference del_words add_words.
Proof.
  revert add_words. induction del_words as [|dw dws IH]; intros [|aw aws]; simpl.
  - split; [|done]. by intros _ i d a Hd.
  - split; [|done]. by intros _ i d a Hd.
  - split; [|done]. by intros _ i d a _ Ha; destruct i.
  - case_bool_decide as Hne.
    + split; [done|]. intros Hno. destruct Hne. by apply (Hno 0%nat).
    + assert (dw = aw) as -> by (by destruct (decide (dw = aw)); [|exfalso; auto]).
      rewrite IH. split.
      * intros Hno [|i] d a Hd Ha; [by simplify_eq/=|]. by apply (Hno i).
      * intros Hno i d a Hd Ha. by apply (Hno (S i)).
Qed.

(** ** The typo extraction engine *)

Section Extraction.

Context (world : collaborators).

(** [get_typo] in the vocabulary of the specification. *)
Lemma get_typo_unfold (repodir output : str) (s : state) :
  staged_diff world repodir = Some output →
  get_typo world repodir s =
    match first_deleted_line output, first_added_line output with
    | Some del_line, Some add_line =>
        match first_mismatch (zip (findall_nonspace del_line)
                                  (findall_nonspace add_line)) with
        | Some (d, a) => (Ok (d, a, old_file_paths output), s)
        | None => TypoNotLocated s
        end
    | _, _ => NoDiffFound s
    end.
Proof.
  unfold staged_diff, get_typo, run_git, first_deleted_line, first_added_line.
  intros ->. cbn [answer bind ret].
  rewrite fold_file_paths, fold_del_add_lines, !app_nil_l.
  rewrite <- !head_filter_find. fold (old_file_paths output).
  destruct (List.filter is_deletion_line (splitlines output)) as [|dl dls];
    [done|].
  destruct (List.filter is_addition_line (splitlines output)) as [|al als];
    [done|].
  cbn [fmap list_fmap head option_fmap option_map].
  by destruct (first_mismatch _) as [[d a]|].
Qed.

(** C1: on a staged diff with a deletion line and an addition line whose
    first ones, tokenized on runs of non-whitespace, first differ at
    some position with the tokens (d, a), [get_typo] returns d, a and
    the suffixes of the lines that begin with [--- a/], in order. *)
Theorem get_typo_first_difference (repodir output dl al d a : str) (s : state) :
  staged_diff world repodir = Some output →
  first_deleted_line output = Some dl →
  first_added_line output = Some al →
  first_difference (findall_nonspace dl) (findall_nonspace al) d a →
  get_typo world repodir s = (Ok (d, a, old_file_paths output), s).
Proof.
  intros Hout Hdl Hal Hdiff.
  rewrite (get_typo_unfold _ _ _ Hout), Hdl, Hal.
  apply first_mismatch_Some in Hdiff. by rewrite Hdiff.
Qed.

(** C2: when the first deletion line and the first addition line exist
    and no position holds two different tokens, [get_typo] fails with
    the diagnostic of TypoNotLocated and returns nothing. *)
Theorem get_typo_typo_not_located (repodir output dl al : str) (s : state) :
  staged_diff world repodir = Some output →
  first_deleted_line output = Some dl →
  first_added_line output = Some al →
  no_difference (findall_nonspace dl) (findall_nonspace al) →
  get_typo world repodir s = TypoNotLocated s
  ∧ fst (get_typo world repodir s) = Raise ProcessingFailed
  ∧ stderr (snd (get_typo world repodir s))
    = stderr s ++ [lit "Could not locate typo"].
Proof.
  intros Hout Hdl Hal Hno.
  rewrite (get_typo_unfold _ _ _ Hout), Hdl, Hal.
  apply first_mismatch_None in Hno. by rewrite Hno.
Qed.

(** C3: when the diff has no deletion line, or no addition line,
    [get_typo] fails with the diagnostic of NoDiffFound, an outcome
    that differs from the one of TypoNotLocated. *)
Theorem get_typo_no_diff_found (repodir output : str) (s : state) :
  staged_diff world repodir = Some output →
  Forall (λ line, is_deletion_line line = false) (splitlines output)
  ∨ Forall (λ line, is_addition_line line = false) (splitlines output) →
  get_typo world repodir s = NoDiffFound s
  ∧ fst (get_typo world repodir s) = Raise ProcessingFailed
  ∧ stderr (snd (get_typo world repodir s))
    = stderr s ++ [lit "Could not read diff"]
  ∧ NoDiffFound (A := str * str * list str) s ≠ TypoNotLocated s.
Proof.
  intros Hout Hnone.
  rewrite (get_typo_unfold _ _ _ Hout).
  unfold first_deleted_line, first_added_line.
  assert (NoDiffFound (A := str * str * list str) s ≠ TypoNotLocated s) as Hne.
  { intros [= Heq]. apply app_inv_head in Heq. by vm_compute in Heq. }
  destruct Hnone as [Hnone | Hnone]; apply find_None_Forall in Hnone;
    rewrite Hnone; [|destruct (List.find is_deletion_line _)]; done.
Qed.

(** C4: whatever [get_typo] returns, the deleted word differs from the
    added word. *)
Theorem get_typo_words_differ (repodir : str) (s s' : state)
    (d a : str) (fps : list str) :
  get_typo world repodir s = (Ok (d, a, fps), s') → d ≠ a.
Proof.
  unfold get_typo, run_git.
  destruct (git world repodir _) as [output|]; [|done]. cbn [answer bind ret].
  rewrite fold_del_add_lines.
  destruct (_ ++ _) as [|dl dls]; [done|]. destruct (_ ++ _) as [|al als]; [done|].
  destruct (first_mismatch _) as [[d' a']|] eqn:Hmis; [|done].
  intros [= <- <- <-]. apply first_mismatch_Some in Hmis.
  by destruct Hmis as (_ & _ & _ & Hne & _).
Qed.

(** C5, as amended: when [get_typo] succeeds, the file paths are the
    suffixes of the diff lines that begin with [--- a/]; there is at
    least one exactly when the diff has such a line. *)
Theorem get_typo_file_paths (repodir output : str) (s s' : state)
    (d a : str) (fps : list str) :
  staged_diff world repodir = Some output →
  get_typo world repodir s = (Ok (d, a, fps), s') →
  fps = old_file_paths output
  ∧ (fps ≠ [] ↔ ∃ line, line ∈ splitlines output
                        ∧ startswith line (lit "--- a/") = true).
Proof.
  intros Hout. rewrite (get_typo_unfold _ _ _ Hout).
  destruct (first_deleted_line output); [|done].
  destruct (first_added_line output); [|done].
  destruct (first_mismatch _) as [[d' a']|]; [|done].
  intros [= <- <- <- <-]. split; [done|].
  unfold old_file_paths. induction (splitlines output) as [|ln lns IH].
  - split; [done|]. intros (line & Hin & _). by apply elem_of_nil in Hin.
  - cbn [omap list_omap]. rewrite suffix_after_startswith.
    destruct (startswith ln (lit "--- a/")) eqn:Hl.
    + split; [|done]. intros _. exists ln. split; [left|done].
    + rewrite IH. split; intros (line & Hin & Hline); exists line.
      * split; [by right|done].
      * apply elem_of_cons in Hin as [->|Hin]; [congruence|done].
Qed.

End Extraction.

(** The scenario of C1: the staged diff of [foo.txt] yields the words
    Teh and The and the one path. *)
Lemma get_typo_first_difference_witness :
  get_typo (stub_world typo_diff) (lit "/home/me/data/foo") fresh
  = (Ok (lit "Teh", lit "The", [lit "foo.txt"]), fresh).
Proof.
  apply (get_typo_first_difference (stub_world typo_diff) (lit "/home/me/data/foo")
           typo_diff (lit "Teh cat sat") (lit "The cat sat")).
  - reflexivity.
  - reflexivity.
  - reflexivity.
  - exists 0%nat. repeat split; [done|]. intros j Hj. lia.
Defined.

Lemma get_typo_typo_not_located_witness :
  get_typo (stub_world spacing_diff) (lit "/home/me/data/foo") fresh
  = TypoNotLocated fresh.
Proof.
  apply (get_typo_typo_not_located (stub_world spacing_diff) (lit "/home/me/data/foo")
           spacing_diff (lit "The cat  sat") (lit "The cat sat")).
  - reflexivity.
  - reflexivity.
  - reflexivity.
  - intros i d a. vm_compute findall_nonspace.
    destruct i as [|[|[|i]]]; simpl; congruence.
Defined.

Lemma get_typo_no_diff_found_witness :
  get_typo (stub_world addition_diff) (lit "/home/me/data/foo") fresh
  = NoDiffFound fresh.
Proof.
  apply (get_typo_no_diff_found (stub_world addition_diff) (lit "/home/me/data/foo")
           addition_diff).
  - reflexivity.
  - left. vm_compute splitlines. repeat constructor.
Defined.

Lemma get_typo_words_differ_witness : lit "Teh" ≠ lit "The".
Proof.
  apply (get_typo_words_differ (stub_world typo_diff) (lit "/home/me/data/foo")
           fresh fresh (lit "Teh") (lit "The") [lit "foo.txt"]).
  reflexivity.
Defined.

(** C5 as stated fails: git quotes the name of [café.txt], no line of
    the diff begins with [--- a/], and [get_typo] succeeds with no file
    path at all. *)
Lemma get_typo_no_file_path :
  get_typo (stub_world quoted_diff) (lit "/home/me/data/foo") fresh
  = (Ok (lit "Teh", lit "The", []), fresh).
Proof. reflexivity. Qed.

Lemma get_typo_file_paths_witness :
  [lit "foo.txt"] = old_file_paths typo_diff
  ∧ ([lit "foo.txt"] ≠ []
     ↔ ∃ line, line ∈ splitlines typo_diff ∧ startswith line (lit "--- a/") = true).
Proof.
  apply (get_typo_file_paths (stub_world typo_diff) (lit "/home/me/data/foo")
           typo_diff fresh fresh (lit "Teh") (lit "The") [lit "foo.txt"]).
  - reflexivity.
  - reflexivity.
Defined.

(** ** Saving a change *)

Section Saving.

Context (world : collaborators).

(** The menu of [make_simple_choice] on the one choice ["save"]. *)
Lemma save_menu (message : str) :
  make_simple_choice world [lit "save"] message
  = match prompt world message [lit "save"; lit "- quit -"] with
    | Some option => if decide (option = lit "save") then Some (lit "save") else None
    | None => None
    end.
Proof.
  unfold make_simple_choice, make_choice.
  replace (merge_sort _ _ ++ [lit "- quit -"]) with [lit "save"; lit "- quit -"]
    by (by vm_compute).
  cbn [fmap list_fmap list_to_map foldr uncurry fst snd].
  destruct (prompt world message _) as [option|]; cbn [default id].
  - destruct (decide (option = lit "save")) as [->|Hne].
    + by rewrite lookup_insert_eq.
    + by rewrite lookup_insert_ne.
  - by rewrite lookup_insert_ne.
Qed.

(** C6: saving the change [get_typo] found and reloading the pending
    changes yields, under the name of the repository, exactly the words,
    the paths and the directory saved, whatever was stored under that
    name before; the entries of the other repositories are kept. *)
Theorem save_then_reload (repodir : str) (s s1 : state)
    (d a : str) (fps : list str) (prior : gmap str entry) :
  get_typo world repodir s = (Ok (d, a, fps), s1) →
  prompt world (lit "Do you want to save?") [lit "save"; lit "- quit -"]
  = Some (lit "save") →
  get_json_value (lit "repository_saves") ∅ s1 = (Ok prior, s1) →
  ∃ (s' : state) (saves : gmap str entry),
    add_change_for_repo world repodir s = (Ok (), s')
    ∧ get_json_value (lit "repository_saves") ∅ s' = (Ok saves, s')
    ∧ saves !! Path_name (to_Path repodir)
      = Some (RepoSave {| add_word := a; del_word := d;
                          file_paths := fps; repodir := repodir |})
    ∧ ∀ name, name ≠ Path_name (to_Path repodir) → saves !! name = prior !! name.
Proof.
  intros Htypo Hsave Hprior.
  unfold add_change_for_repo, bind at 1. rewrite Htypo.
  rewrite save_menu, Hsave. cbn [decide]. rewrite decide_True by done.
  rewrite bool_decide_eq_true_2 by done.
  unfold print, set_json_value, get_json_value, modify, gets, bind, ret in *.
  cbn [storage add_stdout set_storage] in *.
  injection Hprior as Hprior. rewrite Hprior.
  eexists _, _. split; [reflexivity|].
  cbn [storage add_stdout set_storage]. rewrite lookup_insert_eq. cbn [default].
  split; [reflexivity|]. unfold id. split.
  - by rewrite lookup_insert_eq.
  - intros name Hname. by rewrite lookup_insert_ne.
Qed.

End Saving.

Lemma save_then_reload_witness :
  ∃ (s' : state) (saves : gmap str entry),
    add_change_for_repo (stub_world typo_diff) (lit "/home/me/data/foo") fresh = (Ok (), s')
    ∧ get_json_value (lit "repository_saves") ∅ s' = (Ok saves, s')
    ∧ saves !! Path_name (to_Path (lit "/home/me/data/foo")) = Some (RepoSave the_change)
    ∧ ∀ name, name ≠ Path_name (to_Path (lit "/home/me/data/foo"))
              → saves !! name = (∅ : gmap str entry) !! name.
Proof.
  apply (save_then_reload (stub_world typo_diff) (lit "/home/me/data/foo") fresh fresh
           (lit "Teh") (lit "The") [lit "foo.txt"] ∅).
  - reflexivity.
  - reflexivity.
  - reflexivity.
Defined.

(** ** Words, lines and blank lines *)

Lemma findall_nonspace_from_words (cur s : str) :
  Forall (λ c, is_space c = false) cur →
  Forall word (findall_nonspace_from cur s).
Proof.
  revert cur. induction s as [|c s IH]; intros cur Hcur; simpl.
  - destruct cur; [constructor|]. by apply Forall_singleton.
  - destruct (is_space c) eqn:Hc.
    + destruct cur; [by apply IH|]. constructor; [done|]. by apply IH.
    + apply IH. apply Forall_app. split; [done|]. by apply Forall_singleton.
Qed.

Lemma findall_nonspace_words (s : str) : Forall word (findall_nonspace s).
Proof. by apply findall_nonspace_from_words. Qed.

Lemma word_no_line_end (w : str) :
  word w → Forall (λ c, c ≠ 0x0D) w ∧ Forall (λ c, c ≠ LF) w.
Proof.
  intros [_ Hw]. split; eapply Forall_impl; try apply Hw;
    by intros c Hc ->.
Qed.

Lemma universal_newlines_app (t rest : str) :
  Forall (λ c, c ≠ 0x0D) t →
  universal_newlines (t ++ rest) = t ++ universal_newlines rest.
Proof.
  induction 1 as [|c t Hc _ IH]; [done|]. cbn [app universal_newlines].
  destruct (N.eqb_spec c 0x0D); [done|]. by rewrite IH.
Qed.

Lemma split_from_sep (sep : char) (cur t rest : str) :
  Forall (λ c, c ≠ sep) t →
  split_from sep cur (t ++ sep :: rest) = (cur ++ t) :: split_from sep [] rest.
Proof.
  intros Ht. revert cur. induction Ht as [|c t Hc _ IH]; intros cur.
  - cbn [app split_from]. by rewrite N.eqb_refl, app_nil_r.
  - cbn [app split_from]. destruct (N.eqb_spec c sep); [done|].
    by rewrite IH, <- app_assoc.
Qed.

Lemma split_from_no_sep (sep : char) (cur t : str) :
  Forall (λ c, c ≠ sep) t → split_from sep cur t = [cur ++ t].
Proof.
  intros Ht. revert cur. induction Ht as [|c t Hc _ IH]; intros cur.
  - by rewrite app_nil_r.
  - cbn [split_from]. destruct (N.eqb_spec c sep); [done|].
    by rewrite IH, <- app_assoc.
Qed.

(** What [readline] returns: all of a text without line feed, or its
    first line with the line feed. *)
Lemma readline_cases (s : str) :
  (Forall (λ c, c ≠ LF) s ∧ readline s = (s, []))
  ∨ (∃ a b, s = a ++ LF :: b ∧ Forall (λ c, c ≠ LF) a
            ∧ readline s = (a ++ [LF], b)).
Proof.
  induction s as [|c s IH]; [by left|]. cbn [readline].
  destruct (N.eqb_spec c LF) as [->|Hc].
  - right. by exists [], s.
  - destruct IH as [[Hs ->] | (a & b & -> & Ha & ->)].
    + left. by repeat constructor.
    + right. exists (c :: a), b. by repeat constructor.
Qed.

Lemma lstrip_nil (s : str) : lstrip s = [] ↔ blank s.
Proof.
  unfold blank. induction s as [|c s IH]; [done|]. cbn [lstrip].
  destruct (is_space c) eqn:Hc.
  - rewrite IH. split; [by constructor|]. by inversion 1.
  - split; [done|]. inversion 1; congruence.
Qed.

Lemma lstrip_head (s : str) (c : char) (t : str) :
  lstrip s = c :: t → is_space c = false.
Proof.
  induction s as [|c' s IH]; [done|]. cbn [lstrip].
  destruct (is_space c') eqn:Hc; [done|]. by intros [= <- _].
Qed.

Lemma strip_nil (s : str) : strip s = [] ↔ blank s.
Proof.
  unfold strip, rstrip. split.
  - intros Hs. apply (f_equal reverse) in Hs.
    rewrite reverse_involutive, reverse_nil in Hs.
    apply lstrip_nil in Hs. unfold blank in Hs. rewrite Forall_reverse in Hs.
    apply lstrip_nil. destruct (lstrip s) as [|c t] eqn:Hl; [done|].
    apply lstrip_head in Hl. inversion Hs; congruence.
  - intros Hs. apply lstrip_nil in Hs. by rewrite Hs.
Qed.

Lemma blank_line_feed (s : str) : blank (s ++ [LF]) ↔ blank s.
Proof.
  unfold blank. rewrite Forall_app. split; [by intros [? _]|].
  intros Hs. split; [done|]. by repeat constructor.
Qed.

(** The second line of a text is what the second [readline] returns,
    up to its line feed. *)
Lemma second_readline (text line2 : str) :
  split_from LF [] text !! 1%nat = Some line2 →
  ∃ line1 rest1 rest2,
    readline text = (line1, rest1)
    ∧ (readline rest1 = (line2, rest2) ∨ readline rest1 = (line2 ++ [LF], rest2)).
Proof.
  destruct (readline_cases text) as [[Ht _] | (a & b & -> & Ha & ->)].
  - by rewrite split_from_no_sep.
  - rewrite split_from_sep by done. cbn [lookup list_lookup].
    destruct (readline_cases b) as [[Hb Hrb] | (a2 & b2 & -> & Ha2 & Hrb)].
    + rewrite split_from_no_sep by done. intros [= <-]. eauto 6.
    + rewrite split_from_sep by done. intros [= <-]. eauto 6.
Qed.

(** ** The menu derived from the sentinel files *)

Lemma Path_exists_total (p : Path) (s : state) :
  ∃ b : bool, Path_exists p s = (Ok b, s).
Proof. by eexists. Qed.

Lemma Path_exists_sentinel (name : string) (repodirpath : Path) (s : state) :
  sentinel name repodirpath s →
  Path_exists (Path_div repodirpath (to_Path (lit name))) s = (Ok true, s).
Proof.
  intros Hs. unfold Path_exists, gets, bind, ret. cbn [id].
  by rewrite bool_decide_eq_true_2.
Qed.

(** Probing depends on the files and directories only. *)
Lemma Path_exists_frame (p : Path) (b : bool) (s s' : state) :
  files s' = files s → dirs s' = dirs s →
  Path_exists p s = (Ok b, s) → Path_exists p s' = (Ok b, s').
Proof.
  unfold Path_exists, gets, bind, ret. cbn [id].
  intros -> -> [= <-]. done.
Qed.

(** The loop over the seven paths only prints and adds show entries. *)
Lemma show_loop (reponame : str) (repodirpath : Path) (paths : list Path)
    (choices : gmap str (handler * context)) (s : state) :
  map_Forall show_entry choices →
  ∃ shows s',
    foldM (λ (choices : gmap str (handler * context)) path,
             let* has_path := Path_exists (Path_div repodirpath path) in
             print (reponame ++ lit " "
                    ++ (if has_path then lit "HAS" else lit "does not have")
                    ++ lit " " ++ Path_str path);;
             ret (if has_path
                  then <[lit "show " ++ Path_str path := (h_show_path, ctx_path path)]> choices
                  else choices))
          choices paths s = (Ok shows, s')
    ∧ files s' = files s ∧ dirs s' = dirs s ∧ effects s' = effects s
    ∧ map_Forall show_entry shows.
Proof.
  revert choices s. induction paths as [|path paths IH]; intros choices s Hshow.
  - by exists choices, s.
  - cbn [foldM]. unfold bind at 1. unfold bind at 1.
    destruct (Path_exists_total (Path_div repodirpath path) s) as [b ->].
    unfold bind at 1. unfold print, modify, ret at 1.
    match goal with
    | |- context [foldM ?f ?c paths ?st] =>
        destruct (IH c st) as (shows & s' & Heq & Hf & Hd & He & Hs)
    end.
    + destruct b; [|done]. apply map_Forall_insert_2; [|done].
      split; [by eexists|done].
    + exists shows, s'. split; [exact Heq|done].
Qed.

(** The menu, once the seven paths are probed: the show entries, then
    the drafting actions, then the submissions. *)
Lemma get_pr_or_issue_choices_unfold (reponame : str) (repodirpath : Path)
    (s : state) (no_issues issue commit : bool) :
  Path_exists (Path_div repodirpath (to_Path (lit "__no_issues__.txt"))) s
  = (Ok no_issues, s) →
  Path_exists (Path_div repodirpath (to_Path (lit "__issue__.txt"))) s
  = (Ok issue, s) →
  Path_exists (Path_div repodirpath (to_Path (lit "__commit__.txt"))) s
  = (Ok commit, s) →
  ∃ shows s',
    map_Forall show_entry shows
    ∧ effects s' = effects s
    ∧ get_pr_or_issue_choices reponame repodirpath s =
        (Ok (let choices :=
               if no_issues
               then <[lit "make a commit" := (h_make_a_commit, ctx_bool false)]> shows
               else <[lit "make a short issue" := (h_make_issue, ctx_bool false)]>
                      (<[lit "make a full issue" := (h_make_issue, ctx_bool true)]> shows) in
             let choices :=
               if issue
               then <[lit "submit issue" := (h_submit_issue, ctx_None)]> choices
               else choices in
             if commit
             then <[lit "submit issue" := (h_submit_issue, ctx_None)]>
                    (<[lit "submit commit" := (h_submit_commit, ctx_None)]> choices)
             else choices), s').
Proof.
  intros Hno Hissue Hcommit. unfold get_pr_or_issue_choices.
  cbv zeta. unfold bind at 1.
  match goal with
  | |- context [foldM ?f ∅ ?paths s] =>
      destruct (show_loop reponame repodirpath paths ∅ s)
        as (shows & s' & -> & Hf & Hd & He & Hs)
  end; [apply map_Forall_empty|].
  exists shows, s'. split; [done|]. split; [done|].
  unfold bind.
  rewrite (Path_exists_frame _ _ _ _ Hf Hd Hno).
  rewrite (Path_exists_frame _ _ _ _ Hf Hd Hissue).
  by rewrite (Path_exists_frame _ _ _ _ Hf Hd Hcommit).
Qed.

Lemma show_entry_not (key : str) (shows : gmap str (handler * context)) :
  map_Forall show_entry shows →
  (∀ shown, key ≠ lit "show " ++ shown) →
  shows !! key = None.
Proof.
  intros Hshows Hkey. destruct (shows !! key) as [v|] eqn:Hv; [|done].
  apply Hshows in Hv as [[shown ->] _]. by destruct (Hkey shown).
Qed.

(** C8: when the issues-disabled flag is present, the menu offers
    ["make a commit"], bound to the commit drafting, and no entry of the
    menu drafts an issue, full or short. *)
Theorem issues_disabled_offers_commit_only (reponame : str) (repodirpath : Path)
    (s : state) :
  sentinel "__no_issues__.txt" repodirpath s →
  ∃ choices s',
    get_pr_or_issue_choices reponame repodirpath s = (Ok choices, s')
    ∧ choices !! lit "make a commit" = Some (h_make_a_commit, ctx_bool false)
    ∧ choices !! lit "make a full issue" = None
    ∧ choices !! lit "make a short issue" = None
    ∧ ∀ key context, choices !! key ≠ Some (h_make_issue, context).
Proof.
  intros Hno. apply (Path_exists_sentinel "__no_issues__.txt") in Hno.
  destruct (Path_exists_total
              (Path_div repodirpath (to_Path (lit "__issue__.txt"))) s) as [issue Hissue].
  destruct (Path_exists_total
              (Path_div repodirpath (to_Path (lit "__commit__.txt"))) s) as [commit Hcommit].
  destruct (get_pr_or_issue_choices_unfold reponame _ _ _ _ _ Hno Hissue Hcommit)
    as (shows & s' & Hshows & _ & ->).
  eexists _, s'. split; [reflexivity|]. cbv zeta.
  assert (shows !! lit "make a commit" = None) as Hc
    by (apply show_entry_not; [done|]; lits; by intros shown [=]).
  assert (shows !! lit "make a full issue" = None) as Hf
    by (apply show_entry_not; [done|]; lits; by intros shown [=]).
  assert (shows !! lit "make a short issue" = None) as Hsh
    by (apply show_entry_not; [done|]; lits; by intros shown [=]).
  repeat split.
  - destruct issue, commit;
      rewrite ?lookup_insert_ne by (lits; by intros [=]);
      by rewrite lookup_insert_eq.
  - destruct issue, commit;
      by rewrite ?lookup_insert_ne by (lits; by intros [=]).
  - destruct issue, commit;
      by rewrite ?lookup_insert_ne by (lits; by intros [=]).
  - intros key context Hkey.
    assert (map_Forall (λ _ v, v.1 ≠ h_make_issue) shows) as Hnot.
    { intros k v Hv. apply Hshows in Hv as [_ Hv]. by rewrite Hv. }
    revert Hkey.
    destruct issue, commit;
      repeat (rewrite lookup_insert; case_decide; [done|]);
      intros Hkey; by apply Hnot in Hkey.
Qed.

(** C10: the menu offers ["submit issue"] as soon as the issue draft
    exists, and as soon as the commit message exists even without an
    issue draft, whether the issues-disabled flag is present or not. *)
Theorem submit_issue_offered (reponame : str) (repodirpath : Path) (s : state) :
  sentinel "__issue__.txt" repodirpath s
  ∨ sentinel "__commit__.txt" repodirpath s →
  ∃ choices s',
    get_pr_or_issue_choices reponame repodirpath s = (Ok choices, s')
    ∧ choices !! lit "submit issue" = Some (h_submit_issue, ctx_None).
Proof.
  intros Hsentinel.
  destruct (Path_exists_total
              (Path_div repodirpath (to_Path (lit "__no_issues__.txt"))) s) as [no Hno].
  destruct (Path_exists_total
              (Path_div repodirpath (to_Path (lit "__issue__.txt"))) s) as [issue Hissue].
  destruct (Path_exists_total
              (Path_div repodirpath (to_Path (lit "__commit__.txt"))) s) as [commit Hcommit].
  destruct (get_pr_or_issue_choices_unfold reponame _ _ _ _ _ Hno Hissue Hcommit)
    as (shows & s' & _ & _ & ->).
  eexists _, s'. split; [reflexivity|]. cbv zeta.
  destruct commit; [by rewrite lookup_insert_eq|].
  destruct issue; [by rewrite lookup_insert_eq|].
  destruct Hsentinel as [Hs | Hs].
  - apply (Path_exists_sentinel "__issue__.txt") in Hs. congruence.
  - apply (Path_exists_sentinel "__commit__.txt") in Hs. congruence.
Qed.

Lemma issues_disabled_offers_commit_only_witness :
  ∃ choices s',
    get_pr_or_issue_choices (lit "foo") (to_Path (lit "/home/me/data/foo"))
      (set_files <[lit "/home/me/data/foo/__no_issues__.txt" := lit "No Issues."]> fresh)
    = (Ok choices, s')
    ∧ choices !! lit "make a commit" = Some (h_make_a_commit, ctx_bool false)
    ∧ choices !! lit "make a full issue" = None
    ∧ choices !! lit "make a short issue" = None
    ∧ ∀ key context, choices !! key ≠ Some (h_make_issue, context).
Proof.
  apply (issues_disabled_offers_commit_only (lit "foo")
           (to_Path (lit "/home/me/data/foo"))).
  left. vm_compute. by eexists.
Defined.

Lemma submit_issue_offered_witness :
  ∃ choices s',
    get_pr_or_issue_choices (lit "foo") (to_Path (lit "/home/me/data/foo"))
      (set_files (λ fs, <[lit "/home/me/data/foo/__no_issues__.txt" := lit "No Issues."]>
                          (<[lit "/home/me/data/foo/__commit__.txt" := lit "Fix"]> fs))
         fresh)
    = (Ok choices, s')
    ∧ choices !! lit "submit issue" = Some (h_submit_issue, ctx_None).
Proof.
  apply (submit_issue_offered (lit "foo") (to_Path (lit "/home/me/data/foo"))).
  right. left. vm_compute. by eexists.
Defined.

(** ** Drafting and submitting *)

(** The draft [make_issue] writes: the title, an empty line, the body. *)
Lemma make_issue_draft (reponame : str) (r : reposave) (is_full : bool) (s : state) :
  ∃ body s',
    make_issue reponame r is_full s = (Ok (), s')
    ∧ files s' !! issue_draft r
      = Some ((lit "Fix simple typo: " ++ del_word r ++ lit " -> " ++ add_word r)
              ++ LF :: LF :: body)
    ∧ effects s' = effects s.
Proof.
  unfold make_issue, issue_draft, open_w, fprint, modify, bind. cbv zeta.
  eexists _, _. split; [reflexivity|]. split; [|reflexivity].
  cbn [files set_files]. rewrite !lookup_insert_eq. cbn [default from_option id].
  unfold id. f_equal. rewrite <- !app_assoc. cbn [app]. reflexivity.
Qed.

(** A draft whose second line is not blank is refused, and nothing is
    changed. *)
Lemma load_commit_like_file_rejects (path draft line2 : str) (s : state) :
  files s !! path = Some draft →
  text_lines draft !! 1%nat = Some line2 →
  ¬ blank line2 →
  load_commit_like_file path s = (Raise (MalformedDraft path), s).
Proof.
  intros Hfile Hline Hblank.
  unfold load_commit_like_file, open_r, gets, bind, answer, ret. rewrite Hfile.
  destruct (second_readline _ _ Hline) as (l1 & r1 & r2 & -> & [-> | ->]);
    rewrite bool_decide_eq_true_2; try done.
  - by rewrite strip_nil.
  - by rewrite strip_nil, blank_line_feed.
Qed.

Lemma nonempty_snoc {A} (l : list A) : l ≠ [] → ∃ u z, l = u ++ [z].
Proof. induction l as [|z u _] using rev_ind; [done|]. eauto. Qed.

Lemma readline_line (t rest : str) :
  Forall (λ c, c ≠ LF) t → readline (t ++ LF :: rest) = (t ++ [LF], rest).
Proof.
  induction 1 as [|c t Hc _ IH]; cbn [app readline].
  - by rewrite N.eqb_refl.
  - destruct (N.eqb_spec c LF); [done|]. by rewrite IH.
Qed.

(** Stripping a line gives back a text that neither begins nor ends
    with whitespace. *)
Lemma strip_line (x : str) (c z : char) (t u : str) :
  is_space c = false → is_space z = false → x = c :: t → x = u ++ [z] →
  strip (x ++ [LF]) = x.
Proof.
  intros Hc Hz -> Hsnoc. unfold strip, rstrip. cbn [app lstrip]. rewrite Hc.
  change (c :: t ++ [LF]) with ((c :: t) ++ [LF]).
  rewrite (reverse_app (c :: t) [LF]), Hsnoc, (reverse_app u [z]).
  change (lstrip (reverse [LF] ++ reverse [z] ++ reverse u))
    with (lstrip (z :: reverse u)).
  cbn [lstrip]. rewrite Hz.
  by rewrite (reverse_cons (reverse u) z), reverse_involutive.
Qed.

(** The draft of [make_issue] is read back with its title. *)
Lemma make_issue_accepted (reponame : str) (r : reposave) (is_full : bool) (s : state) :
  word (del_word r) → word (add_word r) →
  ∃ body s',
    make_issue reponame r is_full s = (Ok (), s')
    ∧ load_commit_like_file (issue_draft r) s'
      = (Ok (lit "Fix simple typo: " ++ del_word r ++ lit " -> " ++ add_word r, body), s').
Proof.
  intros Hd Ha.
  destruct (make_issue_draft reponame r is_full s) as (body & s' & -> & Hdraft & _).
  assert (∃ z u, add_word r = u ++ [z] ∧ is_space z = false) as (z & u & Hu & Hz).
  { destruct Ha as [Hne Ha]. destruct (nonempty_snoc _ Hne) as (u & z & Hu).
    rewrite Hu in Ha. apply Forall_app in Ha as [_ Ha].
    rewrite Forall_singleton in Ha. by exists z, u. }
  apply word_no_line_end in Hd as [Hd13 Hd10], Ha as [Ha13 Ha10].
  eexists _, s'. split; [done|].
  unfold load_commit_like_file, open_r, gets, bind, answer, ret. rewrite Hdraft.
  rewrite universal_newlines_app
    by (rewrite !Forall_app; repeat split; try done; by vm_compute; repeat constructor).
  change (universal_newlines (LF :: LF :: body))
    with (LF :: LF :: universal_newlines body).
  rewrite readline_line
    by (rewrite !Forall_app; repeat split; try done; by vm_compute; repeat constructor).
  cbn [readline]. rewrite N.eqb_refl.
  rewrite bool_decide_eq_false_2 by (by vm_compute; intros Hne; apply Hne).
  do 3 f_equal.
  eapply (strip_line _ 70 z _
            (lit "Fix simple typo: " ++ del_word r ++ lit " -> " ++ u));
    [done|done|lits; reflexivity|].
  by rewrite Hu, <- !app_assoc.
Qed.

Section Workflow.

Context (world : collaborators).

(** The words [get_typo] returns are tokens. *)
Lemma get_typo_words (repodir : str) (s s' : state) (d a : str) (fps : list str) :
  get_typo world repodir s = (Ok (d, a, fps), s') → word d ∧ word a.
Proof.
  unfold get_typo, run_git.
  destruct (git world repodir _) as [output|]; [|done]. cbn [answer bind ret].
  rewrite fold_del_add_lines.
  destruct (_ ++ _) as [|dl dls]; [done|]. destruct (_ ++ _) as [|al als]; [done|].
  destruct (first_mismatch _) as [[d' a']|] eqn:Hmis; [|done].
  intros [= <- <- <-]. apply first_mismatch_Some in Hmis.
  destruct Hmis as (i & Hd & Ha & _).
  split.
  - by apply (Forall_lookup_1 _ _ _ _ (findall_nonspace_words dl) Hd).
  - by apply (Forall_lookup_1 _ _ _ _ (findall_nonspace_words al) Ha).
Qed.

(** C7: for a change found by [get_typo], the draft written by
    [make_issue], full or short, has the title
    [Fix simple typo: <del_word> -> <add_word>] as its first line and an
    empty second line; and [submit_issue] on a draft whose second line is
    not blank fails with the error of a malformed draft and changes
    nothing, so that no issue is created. *)
Theorem draft_issue_lines_and_malformed_draft :
  (∀ (repodir0 : str) (s0 s0' : state) (reponame : str) (r : reposave)
     (is_full : bool) (s : state),
      get_typo world repodir0 s0 = (Ok (del_word r, add_word r, file_paths r), s0') →
      ∃ s' draft,
        make_issue reponame r is_full s = (Ok (), s')
        ∧ files s' !! issue_draft r = Some draft
        ∧ text_lines draft !! 0%nat
          = Some (lit "Fix simple typo: " ++ del_word r ++ lit " -> " ++ add_word r)
        ∧ text_lines draft !! 1%nat = Some [])
  ∧ (∀ (reponame : str) (r : reposave) (ctxt : context) (s : state)
       (draft line2 : str),
      files s !! issue_draft r = Some draft →
      text_lines draft !! 1%nat = Some line2 →
      ¬ blank line2 →
      submit_issue world reponame r ctxt s
      = (Raise (MalformedDraft (issue_draft r)), s)).
Proof.
  split.
  - intros repodir0 s0 s0' reponame r is_full s Htypo.
    apply get_typo_words in Htypo as [Hd Ha].
    apply word_no_line_end in Hd as [Hd13 Hd10], Ha as [Ha13 Ha10].
    destruct (make_issue_draft reponame r is_full s) as (body & s' & -> & Hdraft & _).
    eexists s', _. split; [done|]. split; [exact Hdraft|].
    unfold text_lines.
    rewrite universal_newlines_app
      by (rewrite !Forall_app; repeat split; try done; by vm_compute; repeat constructor).
    change (universal_newlines (LF :: LF :: body))
      with (LF :: LF :: universal_newlines body).
    rewrite split_from_sep
      by (rewrite !Forall_app; repeat split; try done; by vm_compute; repeat constructor).
    split; [done|]. cbn [lookup list_lookup split_from]. by rewrite N.eqb_refl.
  - intros reponame r ctxt s draft line2 Hfile Hline Hblank.
    unfold submit_issue. cbv zeta. unfold bind at 1. fold (issue_draft r).
    by rewrite (load_commit_like_file_rejects _ _ _ _ Hfile Hline Hblank).
Qed.

End Workflow.

Lemma draft_issue_lines_and_malformed_draft_witness :
  (∃ s' draft,
      make_issue (lit "foo") the_change true fresh = (Ok (), s')
      ∧ files s' !! issue_draft the_change = Some draft
      ∧ text_lines draft !! 0%nat = Some (lit "Fix simple typo: Teh -> The")
      ∧ text_lines draft !! 1%nat = Some [])
  ∧ submit_issue (stub_world typo_diff) (lit "foo") the_change ctx_None
      (set_files <[issue_draft the_change := malformed_draft]> fresh)
    = (Raise (MalformedDraft (issue_draft the_change)),
       set_files <[issue_draft the_change := malformed_draft]> fresh).
Proof.
  destruct (draft_issue_lines_and_malformed_draft (stub_world typo_diff)) as [Hdraft Hsubmit].
  split.
  - apply (Hdraft (lit "/home/me/data/foo") fresh fresh (lit "foo") the_change true fresh).
    reflexivity.
  - apply (Hsubmit (lit "foo") the_change ctx_None _ malformed_draft
             (lit "There is a small typo in foo.txt.")).
    + reflexivity.
    + reflexivity.
    + intros Hblank. apply Forall_cons in Hblank as [Hc _]. by vm_compute in Hc.
Defined.

(** ** Submitting the commit *)

Lemma upstream_root_is_root (r : repo) : repo_parent (upstream_root r) = None.
Proof. by induction r. Qed.

Section Submitting.

Context (world : collaborators).

(** C9: for a saved change with added word [add_word], when the commit
    message is well formed and the collaborators answer, [submit_commit]
    commits, pushes the checked-out branch to the remote branch
    [bugfix/typo_<add_word>], and asks the root of the fork chain for a
    pull request whose head is that branch of the fork and whose base is
    the branch that was checked out. *)
Theorem submit_commit_pushes_and_opens_pull (reponame : str) (r : reposave)
    (ctxt : context) (s : state) (title body head user_org : str) (fork : repo)
    (number : N) (html_url : str) :
  load_commit_like_file (commit_draft r) s = (Ok (title, body), s) →
  git world (Path_str (to_Path (repodir r)))
    [lit "symbolic-ref"; lit "--short"; lit "HEAD"] = Some head →
  is_Some (git world (Path_str (to_Path (repodir r)))
             [lit "commit"; lit "-F"; lit "__commit__.txt"]) →
  is_Some (git world (Path_str (to_Path (repodir r)))
             [lit "push"; lit "origin";
              strip head ++ lit ":" ++ typo_branch (add_word r)]) →
  api_login world = Some user_org →
  api_get_repo world (user_org ++ lit "/" ++ reponame) = Some fork →
  api_create_pull world (upstream_root fork) title body (strip head)
    (user_org ++ lit ":" ++ typo_branch (add_word r)) = Some (number, html_url) →
  ∃ s',
    submit_commit world reponame r ctxt s = (Ok (), s')
    ∧ effects s'
      = effects s
        ++ [ GitFG (Path_str (to_Path (repodir r)))
               [lit "commit"; lit "-F"; lit "__commit__.txt"];
             GitFG (Path_str (to_Path (repodir r)))
               [lit "push"; lit "origin";
                strip head ++ lit ":" ++ typo_branch (add_word r)];
             CreatePull (upstream_root fork) title body (strip head)
               (user_org ++ lit ":" ++ typo_branch (add_word r)) ]
    ∧ repo_parent (upstream_root fork) = None.
Proof.
  intros Hload Hhead [out1 Hcommit] [out2 Hpush] Hlogin Hrepo Hpull.
  unfold submit_commit. cbv zeta. fold (commit_draft r).
  unfold bind at 1. rewrite Hload.
  unfold push_commit, create_pr, run_git_fg, run_git, print, modify, bind.
  cbv zeta. rewrite Hhead. cbn [answer ret]. fold (typo_branch (add_word r)).
  rewrite Hcommit. cbn [answer ret]. rewrite Hpush. cbn [answer ret].
  rewrite Hlogin. cbn [answer ret]. rewrite Hrepo. cbn [answer ret].
  rewrite Hpull. cbn [answer ret].
  eexists. split; [reflexivity|]. split; [|apply upstream_root_is_root].
  cbn [effects add_effect add_stdout]. by rewrite <- !app_assoc.
Qed.

End Submitting.

(** The scenario of C9: the correction to The goes to [bugfix/typo_The]
    and the pull request is opened on [up/foo] against [master]. *)
Lemma submit_commit_pushes_and_opens_pull_witness :
  ∃ s',
    submit_commit (stub_world (lit "master" ++ [LF])) (lit "foo") the_change ctx_None
      (set_files <[commit_draft the_change := commit_message]> fresh) = (Ok (), s')
    ∧ effects s'
      = [ GitFG (lit "/home/me/data/foo") [lit "commit"; lit "-F"; lit "__commit__.txt"];
          GitFG (lit "/home/me/data/foo")
            [lit "push"; lit "origin"; lit "master:bugfix/typo_The"];
          CreatePull (Root (lit "up/foo")) (lit "Fix simple typo: Teh -> The")
            (lit "Closes #7" ++ [LF; LF]) (lit "master") (lit "me:bugfix/typo_The") ]
    ∧ repo_parent (Root (lit "up/foo")) = None.
Proof.
  apply (submit_commit_pushes_and_opens_pull (stub_world (lit "master" ++ [LF]))
           (lit "foo") the_change ctx_None
           (set_files <[commit_draft the_change := commit_message]> fresh)
           (lit "Fix simple typo: Teh -> The") (lit "Closes #7" ++ [LF; LF])
           (lit "master" ++ [LF]) (lit "me")
           (Fork (lit "me/foo") (Root (lit "up/foo")))
           12 (lit "https://example.org/up/foo/pull/12")).
  - reflexivity.
  - reflexivity.
  - by eexists.
  - by eexists.
  - reflexivity.
  - reflexivity.
  - reflexivity.
Defined.

(** * Further properties of the code *)

(** ** Menus *)

Lemma str_leb_total (a b : str) : str_leb a b = true ∨ str_leb b a = true.
Proof.
  revert b. induction a as [|x a IH]; intros [|y b]; simpl; auto.
  destruct (N.ltb_spec x y), (N.ltb_spec y x); simpl; auto; try lia.
  assert (x = y) as -> by lia. rewrite N.eqb_refl. simpl. apply IH.
Qed.

Lemma str_leb_trans (a b c : str) :
  str_leb a b = true → str_leb b c = true → str_leb a c = true.
Proof.
  revert b c. induction a as [|x a IH]; intros [|y b] [|z c]; simpl; try done.
  intros Hab Hbc.
  apply orb_true_iff in Hab as [Hxy | [Hxy Hab]%andb_true_iff];
    apply orb_true_iff in Hbc as [Hyz | [Hyz Hbc]%andb_true_iff];
    apply orb_true_iff.
  - left. apply N.ltb_lt in Hxy, Hyz. apply N.ltb_lt. lia.
  - left. apply N.eqb_eq in Hyz as ->. done.
  - left. apply N.eqb_eq in Hxy as ->. done.
  - right. apply N.eqb_eq in Hxy as ->. rewrite Hyz. simpl. by apply (IH b).
Qed.

Lemma str_le_Total : Total (λ a b : str, Is_true (str_leb a b)).
Proof.
  intros a b. destruct (str_leb_total a b) as [H | H]; rewrite H; simpl; auto.
Qed.

Lemma str_le_Transitive : Transitive (λ a b : str, Is_true (str_leb a b)).
Proof.
  intros a b c Hab Hbc. apply Is_true_true. apply Is_true_true in Hab, Hbc.
  by apply (str_leb_trans a b c).
Qed.

Section Menus.

Context (world : collaborators).

(** X1: the list [make_choice] gives the prompt holds every key of the
    menu once, in code-point order, followed by the entry to quit; the
    choice returned is the value of the key answered, and of the entry
    to quit when there is no answer. *)
Theorem make_choice_menu {V} (choices : gmap str V) (message : str) :
  ∃ menu : list str,
    StronglySorted str_le menu
    ∧ NoDup menu
    ∧ (∀ key, key ∈ menu ↔ is_Some (choices !! key))
    ∧ make_choice world choices message
      = choices !! default (lit "- quit -")
                     (prompt world message (menu ++ [lit "- quit -"])).
Proof.
  exists (merge_sort (λ a b, Is_true (str_leb a b)) (map_to_list choices).*1).
  split; [|split; [|split]].
  - apply (@StronglySorted_merge_sort _ _ _ str_le_Transitive str_le_Total).
  - rewrite merge_sort_Permutation. apply NoDup_fst_map_to_list.
  - intros key. rewrite merge_sort_Permutation, list_elem_of_fmap. split.
    + intros ([k v] & -> & Hkv). apply elem_of_map_to_list in Hkv. by exists v.
    + intros [v Hv]. exists (key, v). split; [done|]. by apply elem_of_map_to_list.
  - reflexivity.
Qed.

Lemma make_simple_choice_elem (choices : list str) (message choice : str) :
  make_simple_choice world choices message = Some choice → choice ∈ choices.
Proof.
  unfold make_simple_choice, make_choice. intros Hsome.
  apply elem_of_list_to_map_2 in Hsome.
  apply list_elem_of_fmap in Hsome as (c & [= _ ->] & Hc). done.
Qed.

(** X2: [make_simple_choice] returns one of the choices it was given,
    or nothing. *)
Theorem make_simple_choice_offered (choices : list str) (message choice : str) :
  make_simple_choice world choices message = Some choice → choice ∈ choices.
Proof.
  unfold make_simple_choice, make_choice. intros Hsome.
  apply elem_of_list_to_map_2 in Hsome.
  apply list_elem_of_fmap in Hsome as (c & [= _ ->] & Hc). done.
Qed.

End Menus.

Lemma make_simple_choice_offered_witness : lit "save" ∈ [lit "save"].
Proof.
  apply (make_simple_choice_offered (stub_world typo_diff) [lit "save"]
           (lit "Do you want to save?") (lit "save")).
  reflexivity.
Defined.

(** ** Paths of registered repositories *)

Lemma split_from_pieces (sep : char) (cur s : str) :
  Forall (λ c, c ≠ sep) cur →
  Forall (Forall (λ c, c ≠ sep)) (split_from sep cur s).
Proof.
  revert cur. induction s as [|c s IH]; intros cur Hcur; cbn [split_from].
  - by apply Forall_singleton.
  - destruct (N.eqb_spec c sep) as [->|Hc].
    + constructor; [done|]. by apply IH.
    + apply IH. apply Forall_app. split; [done|]. by apply Forall_singleton.
Qed.

Lemma to_Path_components (s : str) : Forall component (path_parts (to_Path s)).
Proof.
  unfold to_Path. cbn [path_parts]. apply Forall_forall. intros p Hp.
  apply list_elem_of_filter in Hp as [Hp Hin]. split; [done|].
  pose proof (split_from_pieces SLASH [] s (Forall_nil_2 _)) as Hall.
  rewrite Forall_forall in Hall. by apply Hall.
Qed.

Lemma split_from_join (parts : list str) :
  parts ≠ [] → Forall (Forall (λ c, c ≠ SLASH)) parts →
  split_from SLASH [] (join [SLASH] parts) = parts.
Proof.
  induction parts as [|p parts IH]; [done|]. intros _ Hall.
  apply Forall_cons in Hall as [Hp Hall]. destruct parts as [|q parts].
  - cbn [join]. by rewrite split_from_no_sep.
  - change (join [SLASH] (p :: q :: parts)) with (p ++ SLASH :: join [SLASH] (q :: parts)).
    rewrite split_from_sep by done. by rewrite IH.
Qed.

Lemma filter_components (parts : list str) :
  Forall component parts →
  filter (λ p : str, p ≠ [] ∧ p ≠ lit ".") parts = parts.
Proof.
  induction 1 as [|p parts [Hp _] _ IH]; [done|].
  by rewrite filter_cons_True, IH.
Qed.

(** The components of [root ++ "/".join(parts)], for a root made of
    slashes, are [parts]. *)
Lemma to_Path_parts_join (root : str) (parts : list str) :
  Forall (λ c, c = SLASH) root → parts ≠ [] → Forall component parts →
  path_parts (to_Path (root ++ join [SLASH] parts)) = parts.
Proof.
  intros Hroot Hne Hparts. unfold to_Path. cbn [path_parts].
  induction Hroot as [|c root -> _ IH].
  - cbn [app]. rewrite split_from_join; [by apply filter_components|done|].
    eapply Forall_impl; [exact Hparts|]. by intros p [_ Hp].
  - cbn [app split_from]. rewrite N.eqb_refl.
    rewrite filter_cons_False by (intros [Hnil _]; done). exact IH.
Qed.

Lemma to_Path_root_slashes (s : str) : Forall (λ c, c = SLASH) (path_root (to_Path s)).
Proof.
  unfold to_Path. cbn [path_root].
  destruct (leading_slashes s) as [|[|[|n]]]; repeat constructor.
Qed.

Lemma to_Path_simple_name (name : str) :
  simple_name name → to_Path name = {| path_root := []; path_parts := [name] |}.
Proof.
  intros (Hne & Hdot & Hslash). unfold to_Path. f_equal.
  - destruct name as [|c name]; [done|]. apply Forall_cons in Hslash as [Hc _].
    cbn [leading_slashes]. by destruct (N.eqb_spec c SLASH).
  - rewrite split_from_no_sep by done. cbn [app].
    by rewrite filter_cons_True, filter_nil.
Qed.

(** The name of [Path(str(Path(target) / name))] is [name]. *)
Lemma Path_name_registered (target name : str) :
  simple_name name →
  Path_name (to_Path (Path_str (Path_div (to_Path target) (to_Path name)))) = name.
Proof.
  intros Hname. rewrite (to_Path_simple_name _ Hname).
  unfold Path_div. cbn [path_root path_parts]. unfold Path_str, Path_name.
  cbn [path_root path_parts].
  assert (path_parts (to_Path target) ++ [name] ≠ []) as Hne
    by (by destruct (path_parts (to_Path target))).
  assert (Forall component (path_parts (to_Path target) ++ [name])) as Hall.
  { apply Forall_app. split; [apply to_Path_components|].
    apply Forall_singleton. by destruct Hname as (? & ? & ?). }
  pose proof (to_Path_root_slashes target) as Hroot.
  assert (path_parts
            (to_Path (path_root (to_Path target)
                      ++ join [SLASH] (path_parts (to_Path target) ++ [name])))
          = path_parts (to_Path target) ++ [name]) as Hparts
    by (by apply to_Path_parts_join).
  destruct (path_root (to_Path target)) as [|c root] eqn:Hr.
  - destruct (path_parts (to_Path target) ++ [name]) as [|p ps] eqn:Hps; [done|].
    rewrite <- Hps, Hparts in *. by rewrite last_snoc.
  - rewrite Hparts. by rewrite last_snoc.
Qed.

(** ** Picking and removing a repository *)

Section Repositories.

Context (world : collaborators).
Context (chdir rmtree : str → M unit) (listdir : str → M (list str)).

Lemma pick_repo_common_unfold (key : str) (s : state) :
  pick_repo_common world key s =
    let repository_list := default ∅ (storage s !! key) in
    if bool_decide (repository_list = ∅)
    then (Raise NoRepoException, add_stderr (lit "No repositories available.") s)
    else match make_simple_choice world (map_to_list repository_list).*1
                 (lit "Which Repository?") with
         | None => (Raise NoRepoException, s)
         | Some option =>
             match repository_list !! option with
             | Some repo_data => (Ok (option, repo_data), s)
             | None => (Raise (KeyError option), s)
             end
         end.
Proof.
  unfold pick_repo_common, get_json_value, gets, bind at 1. cbn [ret].
  unfold bind at 1. cbn [ret]. cbv zeta.
  destruct (bool_decide _); [done|].
  destruct (make_simple_choice world _ _) as [option|]; [|done].
  unfold bind, answer. by destruct (_ !! option).
Qed.

(** The three ways [pick_repo_common] ends. *)
Lemma pick_repo_common_cases (key : str) (s : state) :
  (default ∅ (storage s !! key) = ∅
   ∧ pick_repo_common world key s
     = (Raise NoRepoException, add_stderr (lit "No repositories available.") s))
  ∨ (default ∅ (storage s !! key) ≠ ∅
     ∧ make_simple_choice world (map_to_list (default ∅ (storage s !! key))).*1
         (lit "Which Repository?") = None
     ∧ pick_repo_common world key s = (Raise NoRepoException, s))
  ∨ (∃ name data,
       make_simple_choice world (map_to_list (default ∅ (storage s !! key))).*1
         (lit "Which Repository?") = Some name
       ∧ default ∅ (storage s !! key) !! name = Some data
       ∧ pick_repo_common world key s = (Ok (name, data), s)).
Proof.
  rewrite pick_repo_common_unfold. cbv zeta.
  case_bool_decide as Hempty; [by left|]. right.
  destruct (make_simple_choice world _ _) as [name|] eqn:Hchoice; [right|by left].
  pose proof (make_simple_choice_elem _ _ _ _ Hchoice) as Hin.
  apply list_elem_of_fmap in Hin as ([k data] & -> & Hin).
  apply elem_of_map_to_list in Hin. exists k, data. cbn [fst]. by rewrite Hin.
Qed.

(** X3: [pick_repo_common] either returns a name with the record the
    collection holds under it, leaving the state as it was, or raises
    [NoRepoException]; a missing or empty collection gives the
    exception after one line on the error stream.  No key error
    escapes. *)
Theorem pick_repo_common_outcome (key : str) (s : state) :
  match pick_repo_common world key s with
  | (Ok (name, data), s') =>
      s' = s ∧ default ∅ (storage s !! key) !! name = Some data
  | (Raise e, s') =>
      e = NoRepoException
      ∧ (s' = s
         ∨ (default ∅ (storage s !! key) = ∅
            ∧ s' = add_stderr (lit "No repositories available.") s))
  end
  ∧ (default ∅ (storage s !! key) = ∅ →
     pick_repo_common world key s
     = (Raise NoRepoException, add_stderr (lit "No repositories available.") s)).
Proof.
  destruct (pick_repo_common_cases key s)
    as [[Hempty ->] | [(Hne & _ & ->) | (name & data & _ & Hdata & ->)]].
  - split; [|done]. split; [done|]. by right.
  - split; [|done]. split; [done|]. by left.
  - split; [done|]. intros Hempty. rewrite Hempty in Hdata. by rewrite lookup_empty in Hdata.
Qed.



(** What [add_change_for_repo] stores when the operator saves. *)
Lemma add_change_saves (repodir : str) (s : state) (d a : str) (fps : list str) :
  get_typo world repodir s = (Ok (d, a, fps), s) →
  prompt world (lit "Do you want to save?") [lit "save"; lit "- quit -"]
  = Some (lit "save") →
  ∃ s',
    add_change_for_repo world repodir s = (Ok (), s')
    ∧ collection "repository_saves" s' !! Path_name (to_Path repodir)
      = Some (RepoSave {| add_word := a; del_word := d;
                          file_paths := fps; repodir := repodir |}).
Proof.
  intros Htypo Hsave.
  unfold add_change_for_repo, bind at 1. rewrite Htypo.
  rewrite save_menu, Hsave. rewrite decide_True by done.
  rewrite bool_decide_eq_true_2 by done.
  unfold print, set_json_value, get_json_value, modify, gets, bind, ret, collection.
  eexists. split; [reflexivity|].
  cbn [storage add_stdout set_storage]. rewrite lookup_insert_eq.
  cbn [default from_option]. unfold id. by rewrite lookup_insert_eq.
Qed.

(** X5: a repository registered as [str(Path(target) / name)], picked by
    the operator in [prepare_a_change], has its change saved under that
    same [name], with the registered directory. *)
Theorem prepare_a_change_saves_under_name (target target' name : str)
    (s : state) (d a : str) (fps : list str) :
  simple_name name →
  collection "repository_map" s !! name
  = Some (RepoPath (Path_str (Path_div (to_Path target) (to_Path name)))) →
  make_simple_choice world (map_to_list (collection "repository_map" s)).*1
    (lit "Which Repository?") = Some name →
  get_typo world (Path_str (Path_div (to_Path target) (to_Path name))) s
  = (Ok (d, a, fps), s) →
  prompt world (lit "Do you want to save?") [lit "save"; lit "- quit -"]
  = Some (lit "save") →
  ∃ s',
    prepare_a_change world target' s = (Ok (), s')
    ∧ collection "repository_saves" s' !! name
      = Some (RepoSave {| add_word := a; del_word := d; file_paths := fps;
                          repodir := Path_str (Path_div (to_Path target) (to_Path name)) |}).
Proof.
  intros Hname Hreg Hpick Htypo Hsave. unfold prepare_a_change, bind at 1, pick_repo.
  unfold collection in *.
  destruct (pick_repo_common_cases (lit "repository_map") s)
    as [[Hempty _] | [(_ & Hnone & _) | (name' & data & Hpick' & Hdata & ->)]].
  - rewrite Hempty in Hreg. by rewrite lookup_empty in Hreg.
  - congruence.
  - assert (name' = name) as -> by congruence.
    assert (data = RepoPath (Path_str (Path_div (to_Path target) (to_Path name))))
      as -> by congruence.
    destruct (add_change_saves _ s d a fps Htypo Hsave) as (s' & -> & Hentry).
    exists s'. split; [done|]. by rewrite Path_name_registered in Hentry.
Qed.

End Repositories.


Lemma prepare_a_change_saves_under_name_witness :
  ∃ s',
    prepare_a_change
      (operator typo_diff [(lit "Which Repository?", lit "foo");
                           (lit "Do you want to save?", lit "save")])
      (lit "/home/me/data") registry = (Ok (), s')
    ∧ collection "repository_saves" s' !! lit "foo"
      = Some (RepoSave {| add_word := lit "The"; del_word := lit "Teh";
                          file_paths := [lit "foo.txt"];
                          repodir := Path_str (Path_div (to_Path (lit "/home/me/data"))
                                                 (to_Path (lit "foo"))) |}).
Proof.
  apply (prepare_a_change_saves_under_name
           (operator typo_diff [(lit "Which Repository?", lit "foo");
                                (lit "Do you want to save?", lit "save")])
           (lit "/home/me/data") (lit "/home/me/data") (lit "foo") registry
           (lit "Teh") (lit "The") [lit "foo.txt"]).
  - split; [done|]. split; [done|]. vm_compute. repeat constructor; done.
  - by vm_compute.
  - by vm_compute.
  - by vm_compute.
  - by vm_compute.
Defined.

(** ** Registering a directory, and changes that are not saved *)

(** [get_typo] prints on the error stream and touches nothing else. *)
Lemma get_typo_frame (world : collaborators) (repodir : str) (s : state) :
  files (snd (get_typo world repodir s)) = files s
  ∧ dirs (snd (get_typo world repodir s)) = dirs s
  ∧ storage (snd (get_typo world repodir s)) = storage s
  ∧ stdout (snd (get_typo world repodir s)) = stdout s
  ∧ effects (snd (get_typo world repodir s)) = effects s.
Proof.
  unfold get_typo, run_git.
  destruct (git world repodir _) as [output|]; [|done]. cbn [answer bind ret].
  rewrite fold_del_add_lines.
  destruct (_ ++ _) as [|dl dls]; [done|]. destruct (_ ++ _) as [|al als]; [done|].
  by destruct (first_mismatch _) as [[d a]|].
Qed.

Section Registration.

Context (world : collaborators).
Context (listdir : str → M (list str)).


(** [add_change_for_repo], step by step. *)
Lemma add_change_for_repo_unfold (repodir : str) (s : state) :
  add_change_for_repo world repodir s =
    match get_typo world repodir s with
    | (Ok (d, a, fps), s1) =>
        let s2 := add_stdout (lit "Changing " ++ d ++ lit " to " ++ a
                              ++ lit " in " ++ join (lit ", ") fps) s1 in
        if decide (prompt world (lit "Do you want to save?")
                     [lit "save"; lit "- quit -"] = Some (lit "save"))
        then (Ok (),
              set_storage
                <[lit "repository_saves" :=
                    <[Path_name (to_Path repodir) :=
                        RepoSave {| add_word := a; del_word := d;
                                    file_paths := fps; repodir := repodir |}]>
                      (default ∅ (storage s2 !! lit "repository_saves"))]> s2)
        else (Ok (), s2)
    | (Raise e, s1) => (Raise e, s1)
    end.
Proof.
  unfold add_change_for_repo, bind at 1.
  destruct (get_typo world repodir s) as [[[[d a] fps]|e] s1]; [|done].
  unfold bind at 1. cbn [print modify]. rewrite save_menu. cbv zeta.
  destruct (prompt world _ _) as [option|].
  - destruct (decide (option = lit "save")) as [->|Hne].
    + rewrite bool_decide_eq_true_2 by done. rewrite decide_True by done. done.
    + rewrite bool_decide_eq_false_2 by done.
      rewrite decide_False by congruence. done.
  - rewrite bool_decide_eq_false_2 by done. by rewrite decide_False.
Qed.

(** X7: [add_change_for_repo] never writes a file and never calls a
    collaborator that changes something; and unless [get_typo] succeeds
    and the operator answers ["save"], the durable store is left as it
    was. *)
Theorem add_change_for_repo_untouched (repodir : str) (s : state) :
  files (snd (add_change_for_repo world repodir s)) = files s
  ∧ effects (snd (add_change_for_repo world repodir s)) = effects s
  ∧ ((∀ typo, fst (get_typo world repodir s) ≠ Ok typo)
     ∨ prompt world (lit "Do you want to save?") [lit "save"; lit "- quit -"]
       ≠ Some (lit "save") →
     storage (snd (add_change_for_repo world repodir s)) = storage s).
Proof.
  destruct (get_typo_frame world repodir s) as (Hf & _ & Hst & _ & He).
  rewrite add_change_for_repo_unfold.
  destruct (get_typo world repodir s) as [[[[d a] fps]|e] s1];
    cbn [fst snd] in *; [|by repeat split].
  cbv zeta. case_decide as Hsave; cbn [snd files effects storage add_stdout set_storage].
  - repeat split; try done. intros [Hno | Hno]; [|done]. by destruct (Hno (d, a, fps)).
  - by repeat split.
Qed.

End Registration.


Lemma add_change_for_repo_untouched_witness :
  storage (snd (add_change_for_repo (operator typo_diff []) (lit "/home/me/data/foo")
                  registry))
  = storage registry.
Proof.
  apply (add_change_for_repo_untouched (operator typo_diff [])
           (lit "/home/me/data/foo") registry).
  right. by vm_compute.
Defined.

(** ** Lines, tokens and accepted drafts *)

Lemma splitlines_from_lines (n : nat) (s cur : str) :
  (length s ≤ n)%nat →
  Forall (λ c, is_linebreak c = false) cur →
  Forall (Forall (λ c, is_linebreak c = false)) (splitlines_from cur s).
Proof.
  revert s cur. induction n as [|n IH]; intros [|c rest] cur Hlen Hcur;
    cbn [splitlines_from length] in *; try lia.
  - destruct cur; [constructor|]. by apply Forall_singleton.
  - destruct cur; [constructor|]. by apply Forall_singleton.
  - destruct (is_linebreak c) eqn:Hc.
    + constructor; [done|]. destruct rest as [|c' rest']; [constructor|].
      cbn [length] in Hlen.
      destruct ((c =? 13) && (c' =? 10)); apply IH; cbn [length]; (lia || constructor).
    + apply IH; [lia|]. apply Forall_app. split; [done|]. by apply Forall_singleton.
Qed.

Lemma splitlines_lines (s : str) :
  Forall (Forall (λ c, is_linebreak c = false)) (splitlines s).
Proof. by apply (splitlines_from_lines (length s)). Qed.

Lemma old_file_paths_lines (output : str) :
  Forall (Forall (λ c, is_linebreak c = false)) (old_file_paths output).
Proof.
  unfold old_file_paths. pose proof (splitlines_lines output) as Hlines.
  induction Hlines as [|line lines Hline _ IH]; [constructor|].
  cbn [omap list_omap]. rewrite suffix_after_startswith.
  destruct (startswith line _); [|done]. constructor; [|done]. by apply Forall_drop.
Qed.

Lemma lstrip_app (s t : str) (c : char) (u : str) :
  lstrip s = c :: u → lstrip (s ++ t) = (c :: u) ++ t.
Proof.
  induction s as [|c' s IH]; [done|]. cbn [lstrip app].
  destruct (is_space c'); [done|]. by intros [= <- <-].
Qed.

Lemma rstrip_line_feed (s : str) : rstrip (s ++ [LF]) = rstrip s.
Proof. unfold rstrip. by rewrite (reverse_app s [LF]). Qed.

Lemma strip_line_feed (s : str) : strip (s ++ [LF]) = strip s.
Proof.
  destruct (lstrip s) as [|c u] eqn:Hl.
  - assert (blank s) as Hs by (by apply lstrip_nil).
    transitivity (@nil N); [|symmetry]; apply strip_nil; [|done].
    by apply blank_line_feed.
  - unfold strip. rewrite (lstrip_app _ [LF] _ _ Hl), Hl. apply rstrip_line_feed.
Qed.

Section Accepting.

Context (world : collaborators).

(** X8: the words [get_typo] returns are tokens, not empty and free of
    whitespace, the file paths hold no line boundary, and a successful
    extraction leaves the state as it was. *)
Theorem get_typo_returns_tokens (repodir : str) (s s' : state)
    (d a : str) (fps : list str) :
  get_typo world repodir s = (Ok (d, a, fps), s') →
  word d ∧ word a
  ∧ Forall (Forall (λ c, is_linebreak c = false)) fps
  ∧ s' = s.
Proof.
  intros Htypo. destruct (get_typo_words world _ _ _ _ _ _ Htypo) as [Hd Ha].
  split; [done|]. split; [done|].
  unfold get_typo, run_git in Htypo.
  destruct (git world repodir _) as [output|]; [|done]. cbn [answer bind ret] in Htypo.
  rewrite fold_file_paths, fold_del_add_lines in Htypo.
  destruct (_ ++ _) as [|dl dls]; [done|]. destruct (_ ++ _) as [|al als]; [done|].
  destruct (first_mismatch _) as [[d' a']|]; [|done].
  injection Htypo as <- <- <- <-. split; [|done]. apply old_file_paths_lines.
Qed.

End Accepting.

(** X9: [load_commit_like_file] accepts a file whose second line is
    blank or missing, a file of one line or none included, and the
    title it returns is the first line stripped. *)
Theorem load_commit_like_file_accepts (path draft : str) (s : state) :
  files s !! path = Some draft →
  (∀ line2, text_lines draft !! 1%nat = Some line2 → blank line2) →
  ∃ body,
    load_commit_like_file path s
    = (Ok (strip (default [] (text_lines draft !! 0%nat)), body), s).
Proof.
  intros Hfile Hblank.
  unfold load_commit_like_file, open_r, gets, bind, answer, ret. rewrite Hfile.
  unfold text_lines in *.
  destruct (readline_cases (universal_newlines draft))
    as [[Ht ->] | (l1 & rest & Heq & Hl1 & ->)]; [|rewrite Heq in *].
  - rewrite split_from_no_sep by done. cbn [readline app lookup list_lookup default from_option id].
    rewrite bool_decide_eq_false_2 by (intros Hne; by apply Hne).
    by eexists.
  - rewrite split_from_sep in * by done. cbn [app lookup list_lookup] in *.
    rewrite strip_line_feed. cbn [default from_option id].
    destruct (readline_cases rest) as [[Hr ->] | (l2 & rest2 & -> & Hl2 & ->)].
    + rewrite split_from_no_sep in Hblank by done.
      rewrite bool_decide_eq_false_2; [by eexists|].
      intros Hne. apply Hne. apply strip_nil. by apply Hblank.
    + rewrite split_from_sep in Hblank by done.
      rewrite bool_decide_eq_false_2; [by eexists|].
      intros Hne. apply Hne. apply strip_nil, blank_line_feed. by apply Hblank.
Qed.

Lemma get_typo_returns_tokens_witness :
  word (lit "Teh") ∧ word (lit "The")
  ∧ Forall (Forall (λ c, is_linebreak c = false)) [lit "foo.txt"]
  ∧ fresh = fresh.
Proof.
  apply (get_typo_returns_tokens (stub_world typo_diff) (lit "/home/me/data/foo")
           fresh fresh (lit "Teh") (lit "The") [lit "foo.txt"]).
  reflexivity.
Defined.

(** A draft of one line is accepted, with an empty body. *)
Lemma load_commit_like_file_accepts_witness :
  ∃ body,
    load_commit_like_file (lit "/home/me/data/foo/__issue__.txt")
      (set_files <[lit "/home/me/data/foo/__issue__.txt" := lit " Fix it "]> fresh)
    = (Ok (strip (default [] (text_lines (lit " Fix it ") !! 0%nat)), body),
       set_files <[lit "/home/me/data/foo/__issue__.txt" := lit " Fix it "]> fresh).
Proof.
  apply (load_commit_like_file_accepts (lit "/home/me/data/foo/__issue__.txt")
           (lit " Fix it ")).
  - reflexivity.
  - intros line2. by vm_compute.
Defined.

(** ** Drafts that are read back *)

Lemma universal_newlines_id (t : str) :
  Forall (λ c, c ≠ 0x0D) t → universal_newlines t = t.
Proof.
  intros Ht. rewrite <- (app_nil_r t) at 1.
  rewrite universal_newlines_app by done. apply app_nil_r.
Qed.

Lemma Forall_join (P : char → Prop) (sep : str) (parts : list str) :
  Forall P sep → Forall (Forall P) parts → Forall P (join sep parts).
Proof.
  intros Hsep. induction 1 as [|p parts Hp Hparts IH]; [constructor|].
  destruct parts as [|q parts]; [done|].
  change (join sep (p :: q :: parts)) with (p ++ sep ++ join sep (q :: parts)).
  rewrite !Forall_app. by repeat split.
Qed.

(** A text that begins and ends with something else than whitespace
    and holds no line end is read back as a title, and what follows the
    empty line, without carriage return, as the body. *)
Lemma load_titled_draft (path title body : str) (s : state)
    (c z : char) (t u : str) :
  files s !! path = Some (title ++ LF :: LF :: body) →
  Forall (λ c, c ≠ 0x0D) title → Forall (λ c, c ≠ LF) title →
  Forall (λ c, c ≠ 0x0D) body →
  title = c :: t → title = u ++ [z] → is_space c = false → is_space z = false →
  load_commit_like_file path s = (Ok (title, body), s).
Proof.
  intros Hfile H13 H10 Hbody Hc Hz Hsc Hsz.
  unfold load_commit_like_file, open_r, gets, bind, answer, ret. rewrite Hfile.
  rewrite universal_newlines_app by done.
  change (universal_newlines (LF :: LF :: body))
    with (LF :: LF :: universal_newlines body).
  rewrite readline_line by done. cbn [readline]. rewrite N.eqb_refl.
  rewrite bool_decide_eq_false_2 by (by vm_compute; intros Hne; apply Hne).
  rewrite (strip_line title c z t u) by done.
  by rewrite universal_newlines_id.
Qed.

(** The title of an extracted change is such a text. *)
Lemma typo_title_framed (r : reposave) :
  word (del_word r) → word (add_word r) →
  Forall (λ c, c ≠ 0x0D) (typo_title r) ∧ Forall (λ c, c ≠ LF) (typo_title r)
  ∧ ∃ t u z, typo_title r = 70 :: t ∧ typo_title r = u ++ [z] ∧ is_space z = false.
Proof.
  intros Hd Ha. unfold typo_title.
  assert (∃ z u, add_word r = u ++ [z] ∧ is_space z = false) as (z & u & Hu & Hz).
  { destruct Ha as [Hne Ha]. destruct (nonempty_snoc _ Hne) as (u & z & Hu).
    rewrite Hu in Ha. apply Forall_app in Ha as [_ Ha].
    rewrite Forall_singleton in Ha. by exists z, u. }
  apply word_no_line_end in Hd as [Hd13 Hd10], Ha as [Ha13 Ha10].
  split; [|split].
  - rewrite !Forall_app; repeat split; try done; by vm_compute; repeat constructor.
  - rewrite !Forall_app; repeat split; try done; by vm_compute; repeat constructor.
  - eexists _, (lit "Fix simple typo: " ++ del_word r ++ lit " -> " ++ u), z.
    split; [lits; reflexivity|]. split; [|done]. by rewrite Hu, <- !app_assoc.
Qed.

Lemma not_linebreak_not_cr (t : str) :
  Forall (λ c, is_linebreak c = false) t → Forall (λ c, c ≠ 0x0D) t.
Proof. intros Ht. eapply Forall_impl; [exact Ht|]. by intros c Hc ->. Qed.

(** Prove that a text built from literals, words and paths holds no
    carriage return. *)
Ltac no_cr :=
  repeat match goal with
         | |- Forall _ (_ ++ _) => apply Forall_app; split
         | |- Forall _ (_ :: _) => apply Forall_cons; split
         | |- Forall _ [] => apply Forall_nil_2
         | |- Forall _ (lit ?s) => by vm_compute; repeat constructor
         | |- Forall _ (join _ _) => apply Forall_join
         | |- Forall (Forall _) _ =>
             eapply Forall_impl; [eassumption|]; apply not_linebreak_not_cr
         | |- _ ≠ _ => done
         | |- Forall _ _ => assumption
         end.

Lemma draft_text (title body : str) :
  (([] ++ title ++ [LF]) ++ [] ++ [LF]) ++ body ++ [LF]
  = title ++ LF :: LF :: body ++ [LF].
Proof. cbn [app]. by rewrite <- !app_assoc. Qed.

Lemma commit_text (title line1 line2 : str) :
  [] ++ ((title ++ [LF]) ++ ([] ++ [LF]) ++ (line1 ++ [LF]) ++ (line2 ++ [LF]) ++ [])
     ++ [LF]
  = title ++ LF :: LF :: line1 ++ LF :: line2 ++ [LF; LF].
Proof.
  cbn [app]. rewrite <- !app_assoc. cbn [app]. rewrite <- !app_assoc. cbn [app].
  by rewrite <- !app_assoc.
Qed.

(** What [make_issue] and [make_a_commit] write does not depend on the
    state, and for an extracted change the body holds no carriage
    return. *)
Lemma make_issue_state (reponame : str) (r : reposave) (is_full : bool) :
  ∃ body,
    (∀ s, make_issue reponame r is_full s
          = (Ok (), set_files <[issue_draft r := typo_title r ++ LF :: LF :: body]> s))
    ∧ (extracted r → Forall (λ c, c ≠ 0x0D) body).
Proof.
  eexists. split.
  - intros s. unfold make_issue, issue_draft, typo_title, open_w, fprint, modify, bind.
    cbv zeta. f_equal. unfold set_files. cbn [files dirs storage stdout stderr effects].
    f_equal. rewrite !lookup_insert_eq. cbn [default from_option]. unfold id.
    rewrite !insert_insert_eq. f_equal. apply draft_text.
  - intros (Hd & Ha & Hfps).
    apply word_no_line_end in Hd as [Hd13 _], Ha as [Ha13 _].
    destruct is_full; unfold unlines; cbn [fmap list_fmap concat]; no_cr.
Qed.

Lemma make_a_commit_state (reponame : str) (r : reposave) (is_full : bool) :
  ∃ body,
    (∀ s, make_a_commit reponame r is_full s
          = (Ok (), set_files <[commit_draft r := typo_title r ++ LF :: LF :: body]> s))
    ∧ (extracted r → Forall (λ c, c ≠ 0x0D) body).
Proof.
  eexists. split.
  - intros s. unfold make_a_commit, commit_draft, open_w, fprint, modify, bind.
    fold (typo_title r).
    cbv zeta. f_equal. unfold set_files. cbn [files dirs storage stdout stderr effects].
    f_equal. rewrite !lookup_insert_eq. cbn [default from_option]. unfold id.
    rewrite !insert_insert_eq. f_equal. unfold unlines. cbn [fmap list_fmap concat].
    apply commit_text.
  - intros (Hd & Ha & Hfps).
    apply word_no_line_end in Hd as [Hd13 _], Ha as [Ha13 _]. no_cr.
Qed.

(** X10: [make_issue] replaces the issue draft whatever the file held:
    drafting again, full or short, gives the state the last call alone
    gives; no other file, nor the store, nor a collaborator is
    touched. *)
Theorem make_issue_overwrites (reponame reponame' : str) (r : reposave)
    (is_full is_full' : bool) (s : state) :
  snd (make_issue reponame r is_full (snd (make_issue reponame' r is_full' s)))
  = snd (make_issue reponame r is_full s)
  ∧ (∀ path, path ≠ issue_draft r →
             files (snd (make_issue reponame r is_full s)) !! path = files s !! path)
  ∧ storage (snd (make_issue reponame r is_full s)) = storage s
  ∧ effects (snd (make_issue reponame r is_full s)) = effects s.
Proof.
  destruct (make_issue_state reponame r is_full) as (body & Hbody & _).
  destruct (make_issue_state reponame' r is_full') as (body' & Hbody' & _).
  rewrite !Hbody, Hbody'. cbn [snd]. split; [|split; [|done]].
  - unfold set_files. cbn [files dirs storage stdout stderr effects].
    by rewrite insert_insert_eq.
  - intros path Hpath. cbn [files set_files]. by rewrite lookup_insert_ne.
Qed.

(** X11: for a change as the extraction produces them, the file
    [make_issue] writes, and the one [make_a_commit] writes, is read back
    by [load_commit_like_file] as the title
    [Fix simple typo: <del_word> -> <add_word>] and, character for
    character, what the file holds after the empty line. *)
Theorem drafts_read_back (reponame : str) (r : reposave) (is_full : bool) (s : state) :
  extracted r →
  (∃ body,
      files (snd (make_issue reponame r is_full s)) !! issue_draft r
      = Some (typo_title r ++ LF :: LF :: body)
      ∧ load_commit_like_file (issue_draft r) (snd (make_issue reponame r is_full s))
        = (Ok (typo_title r, body), snd (make_issue reponame r is_full s)))
  ∧ (∃ body,
        files (snd (make_a_commit reponame r is_full s)) !! commit_draft r
        = Some (typo_title r ++ LF :: LF :: body)
        ∧ load_commit_like_file (commit_draft r)
            (snd (make_a_commit reponame r is_full s))
          = (Ok (typo_title r, body), snd (make_a_commit reponame r is_full s))).
Proof.
  intros Hr. pose proof Hr as (Hd & Ha & _).
  destruct (typo_title_framed r Hd Ha) as (H13 & H10 & t & u & z & Ht & Hu & Hz).
  split.
  - destruct (make_issue_state reponame r is_full) as (body & -> & Hbody).
    exists body. cbn [snd files set_files]. rewrite lookup_insert_eq. split; [done|].
    eapply load_titled_draft; eauto. cbn [files set_files]. by rewrite lookup_insert_eq.
  - destruct (make_a_commit_state reponame r is_full) as (body & -> & Hbody).
    exists body. cbn [snd files set_files]. rewrite lookup_insert_eq. split; [done|].
    eapply load_titled_draft; eauto. cbn [files set_files]. by rewrite lookup_insert_eq.
Qed.

Lemma drafts_read_back_witness :
  (∃ body,
      files (snd (make_issue (lit "foo") the_change false fresh)) !! issue_draft the_change
      = Some (typo_title the_change ++ LF :: LF :: body)
      ∧ load_commit_like_file (issue_draft the_change)
          (snd (make_issue (lit "foo") the_change false fresh))
        = (Ok (typo_title the_change, body),
           snd (make_issue (lit "foo") the_change false fresh)))
  ∧ (∃ body,
        files (snd (make_a_commit (lit "foo") the_change false fresh))
        !! commit_draft the_change
        = Some (typo_title the_change ++ LF :: LF :: body)
        ∧ load_commit_like_file (commit_draft the_change)
            (snd (make_a_commit (lit "foo") the_change false fresh))
          = (Ok (typo_title the_change, body),
             snd (make_a_commit (lit "foo") the_change false fresh))).
Proof.
  apply (drafts_read_back (lit "foo") the_change false fresh).
  split; [|split]; [split; [done|] ..|];
    vm_compute; repeat constructor.
Defined.

(** ** Submitting, step by step *)

Lemma digits_no_cr (u : Decimal.uint) :
  Forall (λ c, c ≠ 0x0D) (lit (NilEmpty.string_of_uint u)).
Proof.
  induction u; cbn [NilEmpty.string_of_uint];
    [constructor | constructor; [by vm_compute | exact IHu] ..].
Qed.

Lemma str_of_N_no_cr (n : N) : Forall (λ c, c ≠ 0x0D) (str_of_N n).
Proof.
  unfold str_of_N, NilZero.string_of_uint.
  destruct (N.to_uint n) eqn:Hu; try (rewrite <- Hu; apply digits_no_cr).
  by vm_compute; repeat constructor.
Qed.

Lemma load_commit_like_file_state (path : str) (s : state) :
  snd (load_commit_like_file path s) = s.
Proof.
  unfold load_commit_like_file, open_r, gets, bind, answer, ret.
  destruct (files s !! path) as [text|]; [|done].
  destruct (readline (universal_newlines text)) as [line1 rest].
  destruct (readline rest) as [line2 rest'].
  by destruct (bool_decide _).
Qed.

Lemma closes_text (title number : str) :
  [] ++ ((title ++ [LF]) ++ ([] ++ [LF]) ++ ((lit "Closes #" ++ number) ++ [LF]) ++ [])
     ++ [LF]
  = title ++ LF :: LF :: lit "Closes #" ++ number ++ [LF; LF].
Proof. cbn [app]. repeat (rewrite <- app_assoc; cbn [app]). reflexivity.
Qed.

Section Submission.

Context (world : collaborators).

(** [submit_issue], step by step. *)
Lemma submit_issue_unfold (reponame : str) (r : reposave) (ctxt : context) (s : state) :
  submit_issue world reponame r ctxt s =
    match load_commit_like_file (issue_draft r) s with
    | (Raise e, _) => (Raise e, s)
    | (Ok (title, body), _) =>
        match api_login world with
        | None => (Raise GithubException, s)
        | Some user_org =>
            match api_get_repo world (user_org ++ lit "/" ++ reponame) with
            | None => (Raise GithubException, s)
            | Some fork =>
                let s1 := add_effect (CreateIssue (upstream_root fork) title body) s in
                match api_create_issue world (upstream_root fork) title body with
                | None => (Raise GithubException, s1)
                | Some number =>
                    (Ok (),
                     set_files
                       <[commit_draft r :=
                           typo_title r ++ LF :: LF :: lit "Closes #"
                           ++ str_of_N number ++ [LF; LF]]> s1)
                end
            end
        end
    end.
Proof.
  unfold submit_issue. cbv zeta. fold (issue_draft r) (commit_draft r) (typo_title r).
  unfold bind at 1. pose proof (load_commit_like_file_state (issue_draft r) s) as Hs.
  destruct (load_commit_like_file (issue_draft r) s) as [[[title body]|e] s1];
    cbn [snd] in Hs; subst s1; [|done].
  unfold issue_via_api. unfold bind at 1, bind at 1.
  destruct (api_login world) as [user_org|]; [|done]. cbn [answer ret].
  unfold bind at 1. destruct (api_get_repo world _) as [fork|]; [|done].
  cbn [answer ret]. unfold bind at 1. cbn [modify]. cbv zeta.
  destruct (api_create_issue world _ _ _) as [number|]; [|done]. cbn [answer ret].
  unfold open_w, fprint, modify, bind. f_equal. unfold set_files.
  cbn [files dirs storage stdout stderr effects add_effect]. f_equal.
  rewrite lookup_insert_eq. cbn [default from_option]. unfold id.
  rewrite insert_insert_eq. f_equal. unfold unlines. cbn [fmap list_fmap concat].
  apply closes_text.
Qed.

(** [submit_commit], step by step. *)
Lemma submit_commit_unfold (reponame : str) (r : reposave) (ctxt : context) (s : state) :
  submit_commit world reponame r ctxt s =
    let cwd := Path_str (to_Path (repodir r)) in
    match load_commit_like_file (commit_draft r) s with
    | (Raise e, _) => (Raise e, s)
    | (Ok (title, body), _) =>
        match git world cwd [lit "symbolic-ref"; lit "--short"; lit "HEAD"] with
        | None => (Raise ProcessExecutionError, s)
        | Some head =>
            let commit := GitFG cwd [lit "commit"; lit "-F"; lit "__commit__.txt"] in
            let push :=
              GitFG cwd [lit "push"; lit "origin";
                         strip head ++ lit ":" ++ typo_branch (add_word r)] in
            match git world cwd [lit "commit"; lit "-F"; lit "__commit__.txt"] with
            | None => (Raise ProcessExecutionError, add_effect commit s)
            | Some _ =>
                match git world cwd [lit "push"; lit "origin";
                                     strip head ++ lit ":" ++ typo_branch (add_word r)] with
                | None => (Raise ProcessExecutionError, add_effect push (add_effect commit s))
                | Some _ =>
                    create_pr world reponame title body (typo_branch (add_word r))
                      (strip head) (add_effect push (add_effect commit s))
                end
            end
        end
    end.
Proof.
  unfold submit_commit. cbv zeta. fold (commit_draft r).
  unfold bind at 1. pose proof (load_commit_like_file_state (commit_draft r) s) as Hs.
  destruct (load_commit_like_file (commit_draft r) s) as [[[title body]|e] s1];
    cbn [snd] in Hs; subst s1; [|done].
  unfold bind at 1, push_commit, run_git_fg, run_git. cbv zeta.
  fold (typo_branch (add_word r)). unfold bind at 1.
  destruct (git world _ [lit "symbolic-ref"; _; _]) as [head|]; [|done].
  cbn [answer ret]. unfold bind at 1, bind at 1, bind at 1. cbn [modify].
  destruct (git world _ [lit "commit"; _; _]) as [out1|]; [|done].
  cbn [answer ret]. unfold bind at 1, bind at 1, bind at 1. cbn [modify].
  by destruct (git world _ [lit "push"; _; _]) as [out2|].
Qed.

End Submission.

Section Submitted.

Context (world : collaborators).

(** [create_pr], step by step. *)
Lemma create_pr_unfold (reponame title body from_branch to_branch : str) (s : state) :
  create_pr world reponame title body from_branch to_branch s =
    match api_login world with
    | None => (Raise GithubException, s)
    | Some user_org =>
        match api_get_repo world (user_org ++ lit "/" ++ reponame) with
        | None => (Raise GithubException, s)
        | Some fork =>
            let s1 := add_effect (CreatePull (upstream_root fork) title body to_branch
                                    (user_org ++ lit ":" ++ from_branch)) s in
            match api_create_pull world (upstream_root fork) title body to_branch
                    (user_org ++ lit ":" ++ from_branch) with
            | None => (Raise GithubException, s1)
            | Some (number, html_url) =>
                (Ok (), add_stdout (lit "Created PR #" ++ str_of_N number
                                    ++ lit " view at" ++ lit " " ++ html_url) s1)
            end
        end
    end.
Proof.
  unfold create_pr. unfold bind at 1.
  destruct (api_login world) as [user_org|]; [|done]. cbn [answer ret].
  unfold bind at 1. destruct (api_get_repo world _) as [fork|]; [|done].
  cbn [answer ret]. cbv zeta. unfold bind at 1. cbn [modify]. unfold bind at 1.
  by destruct (api_create_pull world _ _ _ _ _) as [[number html_url]|].
Qed.

(** The commit message [submit_issue] writes is read back. *)
Lemma closes_read_back (r : reposave) (number : N) (s : state) :
  extracted r →
  files s !! commit_draft r
  = Some (typo_title r ++ LF :: LF :: lit "Closes #" ++ str_of_N number ++ [LF; LF]) →
  load_commit_like_file (commit_draft r) s
  = (Ok (typo_title r, lit "Closes #" ++ str_of_N number ++ [LF; LF]), s).
Proof.
  intros (Hd & Ha & _) Hfile.
  destruct (typo_title_framed r Hd Ha) as (H13 & H10 & t & u & z & Ht & Hu & Hz).
  eapply load_titled_draft; eauto.
  pose proof (str_of_N_no_cr number). no_cr.
Qed.

(** X12: on a well-formed issue draft, when the API answers,
    [submit_issue] creates one issue, on the root of the fork chain,
    with the title and the body of the draft, and writes the commit
    message: the title rebuilt from the saved words, whatever the title
    of the draft, an empty line, and [Closes #<number>].  For a change
    as the extraction produces them that message is read back as
    written. *)
Theorem submit_issue_creates_issue (reponame : str) (r : reposave) (ctxt : context)
    (s : state) (title body user_org : str) (fork : repo) (number : N) :
  load_commit_like_file (issue_draft r) s = (Ok (title, body), s) →
  api_login world = Some user_org →
  api_get_repo world (user_org ++ lit "/" ++ reponame) = Some fork →
  api_create_issue world (upstream_root fork) title body = Some number →
  ∃ s',
    submit_issue world reponame r ctxt s = (Ok (), s')
    ∧ effects s' = effects s ++ [CreateIssue (upstream_root fork) title body]
    ∧ repo_parent (upstream_root fork) = None
    ∧ files s'
      = <[commit_draft r :=
            typo_title r ++ LF :: LF :: lit "Closes #" ++ str_of_N number ++ [LF; LF]]>
          (files s)
    ∧ (extracted r →
       load_commit_like_file (commit_draft r) s'
       = (Ok (typo_title r, lit "Closes #" ++ str_of_N number ++ [LF; LF]), s')).
Proof.
  intros Hload Hlogin Hrepo Hissue.
  rewrite submit_issue_unfold, Hload, Hlogin, Hrepo. cbv zeta. rewrite Hissue.
  eexists. split; [reflexivity|]. split; [done|].
  split; [apply upstream_root_is_root|]. split; [done|].
  intros Hr. apply closes_read_back; [done|].
  cbn [files set_files add_effect]. by rewrite lookup_insert_eq.
Qed.

(** X13: when [submit_issue] fails, whatever the reason, no commit
    message is written: the files and the store are as they were; and
    an issue is requested only when the draft was well formed. *)
Theorem submit_issue_failure_writes_nothing (reponame : str) (r : reposave)
    (ctxt : context) (s s' : state) (e : exn) :
  submit_issue world reponame r ctxt s = (Raise e, s') →
  files s' = files s ∧ storage s' = storage s
  ∧ (effects s' = effects s
     ∨ ∃ title body on,
         load_commit_like_file (issue_draft r) s = (Ok (title, body), s)
         ∧ effects s' = effects s ++ [CreateIssue on title body]).
Proof.
  rewrite submit_issue_unfold.
  pose proof (load_commit_like_file_state (issue_draft r) s) as Hs.
  destruct (load_commit_like_file (issue_draft r) s) as [[[title body]|e1] s1];
    cbn [snd] in Hs; subst s1; [|intros [= <- <-]; auto].
  destruct (api_login world) as [user_org|]; [|intros [= <- <-]; auto].
  destruct (api_get_repo world _) as [fork|]; [|intros [= <- <-]; auto].
  cbv zeta. destruct (api_create_issue world _ _ _) as [number|]; [done|].
  intros [= <- <-]. repeat split; try done. right. by eexists _, _, _.
Qed.

(** X14: [submit_commit] on a commit message whose second line is not
    blank fails with the error of a malformed draft before any git
    command is run: nothing is committed, pushed or requested. *)
Theorem submit_commit_rejects_malformed (reponame : str) (r : reposave)
    (ctxt : context) (s : state) (draft line2 : str) :
  files s !! commit_draft r = Some draft →
  text_lines draft !! 1%nat = Some line2 →
  ¬ blank line2 →
  submit_commit world reponame r ctxt s = (Raise (MalformedDraft (commit_draft r)), s).
Proof.
  intros Hfile Hline Hblank. rewrite submit_commit_unfold. cbv zeta.
  by rewrite (load_commit_like_file_rejects _ _ _ _ Hfile Hline Hblank).
Qed.

(** X15: [submit_commit] asks for a pull request only after the branch
    was found, the commit made and the push done: a pull request among
    the effects it adds means that git answered the three commands. *)
Theorem submit_commit_pull_after_push (reponame : str) (r : reposave)
    (ctxt : context) (s s' : state) (res : result unit)
    (on : repo) (title body base head : str) :
  submit_commit world reponame r ctxt s = (res, s') →
  CreatePull on title body base head ∈ drop (length (effects s)) (effects s') →
  ∃ out,
    git world (Path_str (to_Path (repodir r)))
      [lit "symbolic-ref"; lit "--short"; lit "HEAD"] = Some out
    ∧ base = strip out
    ∧ is_Some (git world (Path_str (to_Path (repodir r)))
                 [lit "commit"; lit "-F"; lit "__commit__.txt"])
    ∧ is_Some (git world (Path_str (to_Path (repodir r)))
                 [lit "push"; lit "origin";
                  strip out ++ lit ":" ++ typo_branch (add_word r)]).
Proof.
  rewrite submit_commit_unfold. cbv zeta.
  assert (∀ cwd args rest,
            CreatePull on title body base head ∈ GitFG cwd args :: rest →
            CreatePull on title body base head ∈ rest) as Hgit.
  { intros cwd args rest Hin. by apply elem_of_cons in Hin as [[=]|Hin]. }
  assert (CreatePull on title body base head ∉ []) as Hnil.
  { intros Hin. by apply elem_of_nil in Hin. }
  destruct (load_commit_like_file (commit_draft r) s) as [[[title' body']|e1] s1].
  2: { intros [= <- <-]. by rewrite drop_all. }
  destruct (git world _ [lit "symbolic-ref"; _; _]) as [out|].
  2: { intros [= <- <-]. by rewrite drop_all. }
  destruct (git world _ [lit "commit"; _; _]) as [out1|].
  2: { intros [= <- <-]. cbn [effects add_effect]. rewrite drop_app_length.
       intros Hin. by apply Hgit in Hin. }
  destruct (git world _ [lit "push"; _; _]) as [out2|] eqn:Hpush.
  2: { intros [= <- <-]. cbn [effects add_effect]. rewrite <- app_assoc, drop_app_length.
       intros Hin. cbn [app] in Hin. by apply Hgit, Hgit in Hin. }
  rewrite create_pr_unfold.
  intros Hres Hin. exists out. split; [done|].
  split; [|split; [by eexists|rewrite Hpush; by eexists]].
  destruct (api_login world) as [user_org|].
  2: { injection Hres as <- <-. cbn [effects add_effect] in Hin.
       rewrite <- app_assoc, drop_app_length in Hin. cbn [app] in Hin.
       by apply Hgit, Hgit in Hin. }
  destruct (api_get_repo world _) as [fork|].
  2: { injection Hres as <- <-. cbn [effects add_effect] in Hin.
       rewrite <- app_assoc, drop_app_length in Hin. cbn [app] in Hin.
       by apply Hgit, Hgit in Hin. }
  cbv zeta in Hres.
  destruct (api_create_pull world _ _ _ _ _) as [[number html_url]|];
    injection Hres as <- <-; cbn [effects add_effect add_stdout] in Hin;
    rewrite <- !app_assoc, drop_app_length in Hin; cbn [app] in Hin;
    apply Hgit, Hgit, list_elem_of_singleton in Hin; by injection Hin.
Qed.

End Submitted.

(** The draft of the scenario, submitted: an issue on [up/foo]. *)
Lemma submit_issue_creates_issue_witness :
  ∃ title body s',
    submit_issue (stub_world typo_diff) (lit "foo") the_change ctx_None
      (snd (make_issue (lit "foo") the_change false fresh)) = (Ok (), s')
    ∧ effects s'
      = effects (snd (make_issue (lit "foo") the_change false fresh))
        ++ [CreateIssue (upstream_root (Fork (lit "me/foo") (Root (lit "up/foo"))))
              title body]
    ∧ repo_parent (upstream_root (Fork (lit "me/foo") (Root (lit "up/foo")))) = None
    ∧ files s'
      = <[commit_draft the_change :=
            typo_title the_change ++ LF :: LF :: lit "Closes #" ++ str_of_N 7 ++ [LF; LF]]>
          (files (snd (make_issue (lit "foo") the_change false fresh)))
    ∧ (extracted the_change →
       load_commit_like_file (commit_draft the_change) s'
       = (Ok (typo_title the_change, lit "Closes #" ++ str_of_N 7 ++ [LF; LF]), s')).
Proof.
  eexists _, _.
  eapply (submit_issue_creates_issue (stub_world typo_diff) (lit "foo") the_change
            ctx_None _ _ _ (lit "me")).
  - vm_compute. reflexivity.
  - reflexivity.
  - reflexivity.
  - reflexivity.
Defined.

Lemma submit_issue_failure_writes_nothing_witness :
  files (set_files <[issue_draft the_change := malformed_draft]> fresh)
  = files (set_files <[issue_draft the_change := malformed_draft]> fresh)
  ∧ storage (set_files <[issue_draft the_change := malformed_draft]> fresh)
    = storage (set_files <[issue_draft the_change := malformed_draft]> fresh)
  ∧ (effects (set_files <[issue_draft the_change := malformed_draft]> fresh)
     = effects (set_files <[issue_draft the_change := malformed_draft]> fresh)
     ∨ ∃ title body on,
         load_commit_like_file (issue_draft the_change)
           (set_files <[issue_draft the_change := malformed_draft]> fresh)
         = (Ok (title, body), set_files <[issue_draft the_change := malformed_draft]> fresh)
         ∧ effects (set_files <[issue_draft the_change := malformed_draft]> fresh)
           = effects (set_files <[issue_draft the_change := malformed_draft]> fresh)
             ++ [CreateIssue on title body]).
Proof.
  apply (submit_issue_failure_writes_nothing (stub_world typo_diff) (lit "foo")
           the_change ctx_None _ _ (MalformedDraft (issue_draft the_change))).
  by vm_compute.
Defined.

Lemma submit_commit_rejects_malformed_witness :
  submit_commit (stub_world (lit "master" ++ [LF])) (lit "foo") the_change ctx_None
    (set_files <[commit_draft the_change := malformed_draft]> fresh)
  = (Raise (MalformedDraft (commit_draft the_change)),
     set_files <[commit_draft the_change := malformed_draft]> fresh).
Proof.
  apply (submit_commit_rejects_malformed (stub_world (lit "master" ++ [LF])) (lit "foo")
           the_change ctx_None _ malformed_draft
           (lit "There is a small typo in foo.txt.")).
  - reflexivity.
  - reflexivity.
  - intros Hblank. apply Forall_cons in Hblank as [Hc _]. by vm_compute in Hc.
Defined.

Lemma submit_commit_pull_after_push_witness :
  ∃ out,
    git (stub_world (lit "master" ++ [LF])) (Path_str (to_Path (repodir the_change)))
      [lit "symbolic-ref"; lit "--short"; lit "HEAD"] = Some out
    ∧ lit "master" = strip out
    ∧ is_Some (git (stub_world (lit "master" ++ [LF]))
                 (Path_str (to_Path (repodir the_change)))
                 [lit "commit"; lit "-F"; lit "__commit__.txt"])
    ∧ is_Some (git (stub_world (lit "master" ++ [LF]))
                 (Path_str (to_Path (repodir the_change)))
                 [lit "push"; lit "origin";
                  strip out ++ lit ":" ++ typo_branch (add_word the_change)]).
Proof.
  apply (submit_commit_pull_after_push (stub_world (lit "master" ++ [LF])) (lit "foo")
           the_change ctx_None
           (set_files <[commit_draft the_change := commit_message]> fresh)
           (snd (submit_commit (stub_world (lit "master" ++ [LF])) (lit "foo")
                   the_change ctx_None
                   (set_files <[commit_draft the_change := commit_message]> fresh)))
           (Ok ())
           (Root (lit "up/foo")) (lit "Fix simple typo: Teh -> The")
           (lit "Closes #7" ++ [LF; LF]) (lit "master") (lit "me:bugfix/typo_The")).
  - by vm_compute.
  - vm_compute. do 2 apply list_elem_of_further. apply list_elem_of_here.
Defined.

(** ** From one step of the workflow to the next *)

Section Chain.

Context (world : collaborators).

(** X16: for a change as the extraction produces them, submitting the
    issue and then the commit creates the issue on the root of the fork
    chain, commits, pushes, and asks that same root for a pull request
    whose title is [Fix simple typo: <del_word> -> <add_word>] and whose
    body closes the issue just created. *)
Theorem submit_issue_then_submit_commit (reponame : str) (r : reposave)
    (ctxt : context) (s : state) (title body user_org head : str) (fork : repo)
    (number pull : N) (html_url : str) :
  extracted r →
  load_commit_like_file (issue_draft r) s = (Ok (title, body), s) →
  api_login world = Some user_org →
  api_get_repo world (user_org ++ lit "/" ++ reponame) = Some fork →
  api_create_issue world (upstream_root fork) title body = Some number →
  git world (Path_str (to_Path (repodir r)))
    [lit "symbolic-ref"; lit "--short"; lit "HEAD"] = Some head →
  is_Some (git world (Path_str (to_Path (repodir r)))
             [lit "commit"; lit "-F"; lit "__commit__.txt"]) →
  is_Some (git world (Path_str (to_Path (repodir r)))
             [lit "push"; lit "origin";
              strip head ++ lit ":" ++ typo_branch (add_word r)]) →
  api_create_pull world (upstream_root fork) (typo_title r)
    (lit "Closes #" ++ str_of_N number ++ [LF; LF]) (strip head)
    (user_org ++ lit ":" ++ typo_branch (add_word r)) = Some (pull, html_url) →
  ∃ s1 s2,
    submit_issue world reponame r ctxt s = (Ok (), s1)
    ∧ submit_commit world reponame r ctxt s1 = (Ok (), s2)
    ∧ effects s2
      = effects s
        ++ [ CreateIssue (upstream_root fork) title body;
             GitFG (Path_str (to_Path (repodir r)))
               [lit "commit"; lit "-F"; lit "__commit__.txt"];
             GitFG (Path_str (to_Path (repodir r)))
               [lit "push"; lit "origin";
                strip head ++ lit ":" ++ typo_branch (add_word r)];
             CreatePull (upstream_root fork) (typo_title r)
               (lit "Closes #" ++ str_of_N number ++ [LF; LF]) (strip head)
               (user_org ++ lit ":" ++ typo_branch (add_word r)) ].
Proof.
  intros Hr Hload Hlogin Hrepo Hissue Hhead [out1 Hcommit] [out2 Hpush] Hpull.
  rewrite submit_issue_unfold, Hload, Hlogin, Hrepo. cbv zeta. rewrite Hissue.
  eexists _, _. split; [reflexivity|].
  rewrite submit_commit_unfold. cbv zeta.
  rewrite (closes_read_back r number) by
    (try done; cbn [files set_files add_effect]; by rewrite lookup_insert_eq).
  rewrite Hhead, Hcommit, Hpush, create_pr_unfold, Hlogin, Hrepo. cbv zeta.
  rewrite Hpull. split; [reflexivity|].
  cbn [effects add_effect add_stdout set_files]. by rewrite <- !app_assoc.
Qed.

End Chain.

Lemma submit_issue_then_submit_commit_witness :
  ∃ title body s1 s2,
    submit_issue (stub_world (lit "master" ++ [LF])) (lit "foo") the_change ctx_None
      (snd (make_issue (lit "foo") the_change false fresh)) = (Ok (), s1)
    ∧ submit_commit (stub_world (lit "master" ++ [LF])) (lit "foo") the_change ctx_None s1
      = (Ok (), s2)
    ∧ effects s2
      = effects (snd (make_issue (lit "foo") the_change false fresh))
        ++ [ CreateIssue (upstream_root (Fork (lit "me/foo") (Root (lit "up/foo"))))
               title body;
             GitFG (Path_str (to_Path (repodir the_change)))
               [lit "commit"; lit "-F"; lit "__commit__.txt"];
             GitFG (Path_str (to_Path (repodir the_change)))
               [lit "push"; lit "origin";
                strip (lit "master" ++ [LF]) ++ lit ":"
                ++ typo_branch (add_word the_change)];
             CreatePull (upstream_root (Fork (lit "me/foo") (Root (lit "up/foo"))))
               (typo_title the_change)
               (lit "Closes #" ++ str_of_N 7 ++ [LF; LF]) (strip (lit "master" ++ [LF]))
               (lit "me" ++ lit ":" ++ typo_branch (add_word the_change)) ].
Proof.
  eexists _, _.
  eapply (submit_issue_then_submit_commit (stub_world (lit "master" ++ [LF])) (lit "foo")
            the_change ctx_None _ _ _ (lit "me") (lit "master" ++ [LF])
            (Fork (lit "me/foo") (Root (lit "up/foo"))) 7 12
            (lit "https://example.org/up/foo/pull/12")).
  - split; [|split]; [split; [done|] ..|]; vm_compute; repeat constructor.
  - vm_compute. reflexivity.
  - reflexivity.
  - reflexivity.
  - reflexivity.
  - reflexivity.
  - by eexists.
  - by eexists.
  - reflexivity.
Defined.

(** ** The whole menu *)

Lemma Path_exists_present (p : Path) (s : state) (b : bool) :
  Path_exists p s = (Ok b, s) → (b = true ↔ present p s).
Proof.
  unfold Path_exists, gets, bind, ret, present. cbn [id].
  intros [= <-]. apply bool_decide_eq_true.
Qed.

(** The loop over the probed paths, entry by entry. *)
Lemma show_loop_entries (reponame : str) (repodirpath : Path) (paths : list Path)
    (choices : gmap str (handler * context)) (s : state) :
  ∃ shows s',
    foldM (λ (choices : gmap str (handler * context)) path,
             let* has_path := Path_exists (Path_div repodirpath path) in
             print (reponame ++ lit " "
                    ++ (if has_path then lit "HAS" else lit "does not have")
                    ++ lit " " ++ Path_str path);;
             ret (if has_path
                  then <[lit "show " ++ Path_str path := (h_show_path, ctx_path path)]> choices
                  else choices))
          choices paths s = (Ok shows, s')
    ∧ (files s' = files s ∧ dirs s' = dirs s ∧ storage s' = storage s
       ∧ effects s' = effects s ∧ stderr s' = stderr s
       ∧ length (stdout s') = (length (stdout s) + length paths)%nat)
    ∧ (∀ key, is_Some (choices !! key) → is_Some (shows !! key))
    ∧ (∀ path, path ∈ paths → present (Path_div repodirpath path) s →
               is_Some (shows !! (lit "show " ++ Path_str path)))
    ∧ (∀ key value, shows !! key = Some value →
         choices !! key = Some value
         ∨ ∃ path, path ∈ paths ∧ key = lit "show " ++ Path_str path
                   ∧ value = (h_show_path, ctx_path path)
                   ∧ present (Path_div repodirpath path) s).
Proof.
  revert choices s. induction paths as [|path paths IH]; intros choices s.
  - exists choices, s. split; [done|]. split; [cbn [length]; by rewrite Nat.add_0_r|].
    split; [done|]. split; [by intros path Hin%elem_of_nil|]. by left.
  - cbn [foldM]. unfold bind at 1. unfold bind at 1.
    destruct (Path_exists_total (Path_div repodirpath path) s) as [b Hb].
    rewrite Hb. apply Path_exists_present in Hb.
    unfold bind at 1. unfold print, modify, ret at 1.
    match goal with
    | |- context [foldM ?f ?c paths ?st] =>
        destruct (IH c st) as (shows & s' & Heq & Hframe & Hmono & Hin & Hout)
    end.
    exists shows, s'. split; [exact Heq|].
    cbn [files dirs storage effects stderr stdout add_stdout] in Hframe.
    destruct Hframe as (Hf & Hd & Hst & He & Herr & Hlen).
    split; [repeat split; try done; rewrite Hlen, length_app; cbn [length]; lia|].
    split; [|split].
    + intros key Hkey. apply Hmono. destruct b; [|done].
      destruct (decide (lit "show " ++ Path_str path = key)) as [<-|Hne].
      * rewrite lookup_insert_eq. by eexists.
      * by rewrite lookup_insert_ne.
    + intros path' [->|Hpath']%elem_of_cons Hpresent.
      * apply Hmono. apply Hb in Hpresent as ->. rewrite lookup_insert_eq. by eexists.
      * by apply Hin.
    + intros key value Hvalue. apply Hout in Hvalue as [Hvalue|(path' & Hp' & ? & ? & ?)].
      * destruct b; [|by left].
        destruct (decide (lit "show " ++ Path_str path = key)) as [<-|Hne].
        -- rewrite lookup_insert_eq in Hvalue. injection Hvalue as <-.
           right. exists path. split; [left|]. split; [done|]. split; [done|].
           by apply Hb.
        -- rewrite lookup_insert_ne in Hvalue by done. by left.
      * right. exists path'. split; [by right|]. done.
Qed.

(** The menu with what is known of its show entries. *)
Lemma get_pr_or_issue_choices_entries (reponame : str) (repodirpath : Path)
    (s : state) :
  ∃ shows s' (no_issues issue commit : bool),
    get_pr_or_issue_choices reponame repodirpath s =
      (Ok (let choices :=
             if no_issues
             then <[lit "make a commit" := (h_make_a_commit, ctx_bool false)]> shows
             else <[lit "make a short issue" := (h_make_issue, ctx_bool false)]>
                    (<[lit "make a full issue" := (h_make_issue, ctx_bool true)]> shows) in
           let choices :=
             if issue
             then <[lit "submit issue" := (h_submit_issue, ctx_None)]> choices
             else choices in
           if commit
           then <[lit "submit issue" := (h_submit_issue, ctx_None)]>
                  (<[lit "submit commit" := (h_submit_commit, ctx_None)]> choices)
           else choices), s')
    ∧ (no_issues = true ↔ sentinel "__no_issues__.txt" repodirpath s)
    ∧ (issue = true ↔ sentinel "__issue__.txt" repodirpath s)
    ∧ (commit = true ↔ sentinel "__commit__.txt" repodirpath s)
    ∧ (files s' = files s ∧ dirs s' = dirs s ∧ storage s' = storage s
       ∧ effects s' = effects s ∧ stderr s' = stderr s
       ∧ length (stdout s') = (length (stdout s) + 7)%nat)
    ∧ (∀ path, path ∈ probed_paths → present (Path_div repodirpath path) s →
               is_Some (shows !! (lit "show " ++ Path_str path)))
    ∧ (∀ key value, shows !! key = Some value →
         ∃ path, path ∈ probed_paths ∧ key = lit "show " ++ Path_str path
                 ∧ value = (h_show_path, ctx_path path)
                 ∧ present (Path_div repodirpath path) s).
Proof.
  destruct (Path_exists_total
              (Path_div repodirpath (to_Path (lit "__no_issues__.txt"))) s) as [no Hno].
  destruct (Path_exists_total
              (Path_div repodirpath (to_Path (lit "__issue__.txt"))) s) as [issue Hissue].
  destruct (Path_exists_total
              (Path_div repodirpath (to_Path (lit "__commit__.txt"))) s) as [commit Hcommit].
  unfold get_pr_or_issue_choices. cbv zeta. unfold bind at 1.
  match goal with
  | |- context [foldM ?f ∅ ?paths s] =>
      destruct (show_loop_entries reponame repodirpath paths ∅ s)
        as (shows & s' & -> & Hframe & _ & Hin & Hout)
  end.
  exists shows, s', no, issue, commit.
  pose proof Hframe as (Hf & Hd & _).
  split.
  { unfold bind.
    rewrite (Path_exists_frame _ _ _ _ Hf Hd Hno).
    rewrite (Path_exists_frame _ _ _ _ Hf Hd Hissue).
    by rewrite (Path_exists_frame _ _ _ _ Hf Hd Hcommit). }
  split; [by apply Path_exists_present in Hno|].
  split; [by apply Path_exists_present in Hissue|].
  split; [by apply Path_exists_present in Hcommit|].
  split; [done|]. split; [exact Hin|].
  intros key value Hvalue. apply Hout in Hvalue as [Hvalue|Hvalue]; [|done].
  by rewrite lookup_empty in Hvalue.
Qed.

Lemma probed_paths_inj (p p' : Path) :
  p ∈ probed_paths → p' ∈ probed_paths → Path_str p = Path_str p' → p = p'.
Proof.
  unfold probed_paths. intros Hp Hp' Heq.
  repeat (apply elem_of_cons in Hp as [->|Hp]); try (by apply elem_of_nil in Hp);
    repeat (apply elem_of_cons in Hp' as [->|Hp']); try (by apply elem_of_nil in Hp');
    first [reflexivity | by vm_compute in Heq].
Qed.

(** The entries added after the loop leave the show entries alone. *)
Lemma menu_keeps_shows (shows : gmap str (handler * context))
    (no_issues issue commit : bool) (shown : str) :
  (let choices :=
     if no_issues
     then <[lit "make a commit" := (h_make_a_commit, ctx_bool false)]> shows
     else <[lit "make a short issue" := (h_make_issue, ctx_bool false)]>
            (<[lit "make a full issue" := (h_make_issue, ctx_bool true)]> shows) in
   let choices :=
     if issue
     then <[lit "submit issue" := (h_submit_issue, ctx_None)]> choices
     else choices in
   if commit
   then <[lit "submit issue" := (h_submit_issue, ctx_None)]>
          (<[lit "submit commit" := (h_submit_commit, ctx_None)]> choices)
   else choices) !! (lit "show " ++ shown)
  = shows !! (lit "show " ++ shown).
Proof.
  cbv zeta. destruct no_issues, issue, commit;
    by rewrite ?lookup_insert_ne by (lits; by intros [=]).
Qed.

(** X17: whatever the working directory holds, the menu offers
    ["make a commit"] exactly when the issues-disabled flag is present
    and the two issue drafts exactly when it is absent, ["submit
    commit"] exactly when the commit message exists, and ["submit
    issue"] exactly when the issue draft or the commit message
    exists. *)
Theorem menu_table (reponame : str) (repodirpath : Path) (s : state) :
  ∃ choices s',
    get_pr_or_issue_choices reponame repodirpath s = (Ok choices, s')
    ∧ (choices !! lit "make a commit" = Some (h_make_a_commit, ctx_bool false)
       ↔ sentinel "__no_issues__.txt" repodirpath s)
    ∧ (choices !! lit "make a full issue" = Some (h_make_issue, ctx_bool true)
       ↔ ¬ sentinel "__no_issues__.txt" repodirpath s)
    ∧ (choices !! lit "make a short issue" = Some (h_make_issue, ctx_bool false)
       ↔ ¬ sentinel "__no_issues__.txt" repodirpath s)
    ∧ (choices !! lit "submit commit" = Some (h_submit_commit, ctx_None)
       ↔ sentinel "__commit__.txt" repodirpath s)
    ∧ (choices !! lit "submit issue" = Some (h_submit_issue, ctx_None)
       ↔ sentinel "__issue__.txt" repodirpath s
         ∨ sentinel "__commit__.txt" repodirpath s).
Proof.
  destruct (get_pr_or_issue_choices_entries reponame repodirpath s)
    as (shows & s' & no & issue & commit & -> & Hno & Hissue & Hcommit & _ & _ & Hout).
  eexists _, s'. split; [reflexivity|]. cbv zeta.
  assert (∀ key, (∀ shown, key ≠ lit "show " ++ shown) → shows !! key = None) as Hnone.
  { intros key Hkey. destruct (shows !! key) as [v|] eqn:Hv; [|done].
    apply Hout in Hv as (path & _ & -> & _). by destruct (Hkey (Path_str path)). }
  pose proof (Hnone (lit "make a commit") ltac:(lits; by intros shown [=])) as H1.
  pose proof (Hnone (lit "make a full issue") ltac:(lits; by intros shown [=])) as H2.
  pose proof (Hnone (lit "make a short issue") ltac:(lits; by intros shown [=])) as H3.
  pose proof (Hnone (lit "submit commit") ltac:(lits; by intros shown [=])) as H4.
  pose proof (Hnone (lit "submit issue") ltac:(lits; by intros shown [=])) as H5.
  clear Hnone Hout.
  destruct no, issue, commit;
    rewrite ?lookup_insert_eq, ?lookup_insert_ne by (lits; by intros [=]);
    rewrite ?lookup_insert_eq, ?lookup_insert_ne by (lits; by intros [=]);
    rewrite ?lookup_insert_eq, ?lookup_insert_ne by (lits; by intros [=]);
    rewrite ?H1, ?H2, ?H3, ?H4, ?H5;
    repeat match goal with
           | H : true = true ↔ _ |- _ => apply proj1 in H; specialize (H eq_refl)
           | H : false = true ↔ _ |- _ => apply proj2 in H
           end;
    repeat split; intros; try done; try tauto; try (by apply lookup_insert_eq);
    try match goal with H : _ ∨ _ |- _ => destruct H end;
    try match goal with
        | H : ?P → false = true |- ¬ ?P => let H' := fresh in intros H'; by apply H in H'
        end;
    try match goal with H : ?P → false = true, H' : ?P |- _ => by apply H in H' end.
Qed.


(** X19: for each of the seven paths probed, the menu has the entry
    [show <path>], bound to the display of that path, exactly when the
    path exists in the working directory. *)
Theorem menu_show_entries (reponame : str) (repodirpath path : Path) (s : state) :
  path ∈ probed_paths →
  ∃ choices s',
    get_pr_or_issue_choices reponame repodirpath s = (Ok choices, s')
    ∧ (choices !! (lit "show " ++ Path_str path) = Some (h_show_path, ctx_path path)
       ↔ present (Path_div repodirpath path) s).
Proof.
  intros Hpath.
  destruct (get_pr_or_issue_choices_entries reponame repodirpath s)
    as (shows & s' & no & issue & commit & -> & _ & _ & _ & _ & Hin & Hout).
  eexists _, s'. split; [reflexivity|]. rewrite menu_keeps_shows.
  assert (∀ value, shows !! (lit "show " ++ Path_str path) = Some value →
                   value = (h_show_path, ctx_path path)
                   ∧ present (Path_div repodirpath path) s) as Hvalue.
  { intros value Hv. apply Hout in Hv as (path' & Hpath' & Hkey & -> & Hpresent).
    apply app_inv_head in Hkey.
    by rewrite (probed_paths_inj path path' Hpath Hpath' Hkey). }
  split.
  - intros Hv. by apply Hvalue in Hv as [_ Hv].
  - intros Hpresent. destruct (Hin path Hpath Hpresent) as [value Hv].
    by destruct (Hvalue value Hv) as [-> _].
Qed.

Lemma menu_show_entries_witness :
  ∃ choices s',
    get_pr_or_issue_choices (lit "foo") (to_Path (lit "/home/me/data/foo"))
      (set_files <[lit "/home/me/data/foo/CONTRIBUTING.md" := lit "Welcome"]> fresh)
    = (Ok choices, s')
    ∧ (choices !! (lit "show " ++ Path_str (to_Path (lit "CONTRIBUTING.md")))
       = Some (h_show_path, ctx_path (to_Path (lit "CONTRIBUTING.md")))
       ↔ present (Path_div (to_Path (lit "/home/me/data/foo"))
                    (to_Path (lit "CONTRIBUTING.md")))
           (set_files <[lit "/home/me/data/foo/CONTRIBUTING.md" := lit "Welcome"]> fresh)).
Proof.
  apply (menu_show_entries (lit "foo") (to_Path (lit "/home/me/data/foo"))
           (to_Path (lit "CONTRIBUTING.md"))).
  unfold probed_paths. do 2 apply list_elem_of_further. apply list_elem_of_here.
Defined.

(** The submissions offered once a draft exists. *)
Lemma menu_submissions (reponame : str) (repodirpath : Path) (s : state) :
  ∃ choices s',
    get_pr_or_issue_choices reponame repodirpath s = (Ok choices, s')
    ∧ (sentinel "__issue__.txt" repodirpath s →
       choices !! lit "submit issue" = Some (h_submit_issue, ctx_None))
    ∧ (sentinel "__commit__.txt" repodirpath s →
       choices !! lit "submit commit" = Some (h_submit_commit, ctx_None)).
Proof.
  destruct (get_pr_or_issue_choices_entries reponame repodirpath s)
    as (shows & s' & no & issue & commit & -> & _ & Hissue & Hcommit & _).
  eexists _, s'. split; [reflexivity|]. cbv zeta. split.
  - intros ->%Hissue. destruct commit; apply lookup_insert_eq.
  - intros ->%Hcommit.
    rewrite lookup_insert_ne by (lits; by intros [=]). apply lookup_insert_eq.
Qed.

Section Progress.

Context (world : collaborators).

(** X20: each step of the workflow unlocks the next one in the menu of
    the repository: after [make_issue] the menu offers ["submit
    issue"]; after [make_a_commit], and after a [submit_issue] that
    succeeded, it offers ["submit commit"]. *)
Theorem workflow_progress (reponame : str) (r : reposave) (is_full : bool)
    (ctxt : context) (s : state) :
  (∃ choices s',
      get_pr_or_issue_choices reponame (to_Path (repodir r))
        (snd (make_issue reponame r is_full s)) = (Ok choices, s')
      ∧ choices !! lit "submit issue" = Some (h_submit_issue, ctx_None))
  ∧ (∃ choices s',
        get_pr_or_issue_choices reponame (to_Path (repodir r))
          (snd (make_a_commit reponame r is_full s)) = (Ok choices, s')
        ∧ choices !! lit "submit commit" = Some (h_submit_commit, ctx_None))
  ∧ (∀ s1, submit_issue world reponame r ctxt s = (Ok (), s1) →
           ∃ choices s',
             get_pr_or_issue_choices reponame (to_Path (repodir r)) s1 = (Ok choices, s')
             ∧ choices !! lit "submit commit" = Some (h_submit_commit, ctx_None)).
Proof.
  split; [|split].
  - destruct (make_issue_state reponame r is_full) as (body & Hbody & _).
    rewrite Hbody. cbn [snd].
    destruct (menu_submissions reponame (to_Path (repodir r))
                (set_files <[issue_draft r := typo_title r ++ LF :: LF :: body]> s))
      as (choices & s' & -> & Hissue & _).
    exists choices, s'. split; [done|]. apply Hissue. left.
    fold (issue_draft r). cbn [files set_files]. rewrite lookup_insert_eq. by eexists.
  - destruct (make_a_commit_state reponame r is_full) as (body & Hbody & _).
    rewrite Hbody. cbn [snd].
    destruct (menu_submissions reponame (to_Path (repodir r))
                (set_files <[commit_draft r := typo_title r ++ LF :: LF :: body]> s))
      as (choices & s' & -> & _ & Hcommit).
    exists choices, s'. split; [done|]. apply Hcommit. left.
    fold (commit_draft r). cbn [files set_files]. rewrite lookup_insert_eq. by eexists.
  - intros s1. rewrite submit_issue_unfold.
    destruct (load_commit_like_file (issue_draft r) s) as [[[title body]|e] s0]; [|done].
    destruct (api_login world) as [user_org|]; [|done].
    destruct (api_get_repo world _) as [fork|]; [|done]. cbv zeta.
    destruct (api_create_issue world _ _ _) as [number|]; [|done].
    intros [= <-].
    match goal with
    | |- context [get_pr_or_issue_choices _ _ ?st] =>
        destruct (menu_submissions reponame (to_Path (repodir r)) st)
          as (choices & s' & -> & _ & Hcommit)
    end.
    exists choices, s'. split; [done|]. apply Hcommit. left.
    fold (commit_draft r). cbn [files set_files add_effect].
    rewrite lookup_insert_eq. by eexists.
Qed.

End Progress.

Lemma workflow_progress_witness :
  ∃ choices s',
    get_pr_or_issue_choices (lit "foo") (to_Path (repodir the_change))
      (snd (submit_issue (stub_world typo_diff) (lit "foo") the_change ctx_None
              (snd (make_issue (lit "foo") the_change false fresh))))
    = (Ok choices, s')
    ∧ choices !! lit "submit commit" = Some (h_submit_commit, ctx_None).
Proof.
  destruct (workflow_progress (stub_world typo_diff) (lit "foo") the_change false
              ctx_None (snd (make_issue (lit "foo") the_change false fresh)))
    as (_ & _ & Hsubmitted).
  apply Hsubmitted. by vm_compute.
Defined.

(** With nothing registered, picking a repository fails with one line
    on the error stream. *)
Lemma pick_repo_common_outcome_witness :
  pick_repo_common (stub_world typo_diff) (lit "repository_map") fresh
  = (Raise NoRepoException, add_stderr (lit "No repositories available.") fresh).
Proof.
  apply (pick_repo_common_outcome (stub_world typo_diff) (lit "repository_map") fresh).
  reflexivity.
Defined.
